(** * mpwik water-outage notifier: a shallow embedding and its properties

    The repository holds two variants of one AWS Lambda function:

    - [Index] embeds [src/index.js], the single-category variant, which
      tracks the planned outages only;
    - [Part000] embeds [src/unnamed/part_000], the two-category variant,
      which tracks the emergency and the planned outages.

    JavaScript strings are sequences of UTF-16 code units and are modelled
    as [list N].  The external services (HTTP transport, the cheerio HTML
    parser, DynamoDB, the Telegram endpoint, the clock, the process
    environment) are not part of the program: their behaviour during one
    invocation is a record [env] of functions, and the DynamoDB table is a
    finite map threaded through the handler.  Every effect the program
    performs is recorded, in order, in a trace of [event]s.

    The program has no value for the outcome of a category's run: a run
    shows how it ended by the line it writes to the console (and, in the
    single-category variant, by the response of the handler).  The
    properties below speak of these lines, of the requests sent and of the
    table.  [cheerio.load] is taken to return a document for every body. *)

From Stdlib Require Import NArith List Permutation.
From Stdlib.Strings Require Import String Byte.
From stdpp Require Import base list sorting gmap.
Import ListNotations.

Local Open Scope N_scope.
Local Open Scope list_scope.

(** ** JavaScript strings *)

Module JS.

(** A string is the list of its UTF-16 code units. *)
Definition jsstring := list N.

(** [decode_utf8] turns the UTF-8 bytes of a source literal into code units.
    Sequences of one to three bytes cover the Basic Multilingual Plane,
    which holds every character of the program's literals. *)
Fixpoint decode_utf8 (bs : list N) : jsstring :=
  match bs with
  | [] => []
  | b :: r =>
      if b <? 128 then b :: decode_utf8 r
      else if b <? 224 then
        match r with
        | b2 :: r' => ((b - 192) * 64 + (b2 - 128)) :: decode_utf8 r'
        | [] => []
        end
      else
        match r with
        | b2 :: b3 :: r' =>
            ((b - 224) * 4096 + (b2 - 128) * 64 + (b3 - 128)) :: decode_utf8 r'
        | _ => []
        end
  end.

Definition lit (s : string) : jsstring :=
  decode_utf8 (map Byte.to_N (list_byte_of_string s)).

(** The line feed, written [\n] in the source. *)
Definition nl : jsstring := [10].

(** [!s] for a string [s]: only the empty string is falsy. *)
Definition falsy (s : jsstring) : bool :=
  match s with [] => true | _ :: _ => false end.

(** [a === b] on strings. *)
Fixpoint str_eqb (a b : jsstring) : bool :=
  match a, b with
  | [], [] => true
  | x :: a', y :: b' => (x =? y) && str_eqb a' b'
  | _, _ => false
  end.

(** [s.startsWith(p)]. *)
Fixpoint startsWith (s p : jsstring) : bool :=
  match p, s with
  | [], _ => true
  | _ :: _, [] => false
  | y :: p', x :: s' => (x =? y) && startsWith s' p'
  end.

(** White space and line terminators, the code units [trim] removes. *)
Definition is_ws (c : N) : bool :=
  ((9 <=? c) && (c <=? 13)) || (c =? 32) || (c =? 160) || (c =? 5760)
  || ((8192 <=? c) && (c <=? 8202)) || (c =? 8232) || (c =? 8233)
  || (c =? 8239) || (c =? 8287) || (c =? 12288) || (c =? 65279).

Fixpoint trimStart (s : jsstring) : jsstring :=
  match s with
  | [] => []
  | c :: s' => if is_ws c then trimStart s' else s
  end.

(** [s.trim()]. *)
Definition trim (s : jsstring) : jsstring :=
  rev (trimStart (rev (trimStart s))).

(** [s.split(sep)] for a non-empty separator.  [skip] counts the code units
    of a separator occurrence still to be passed over, [cur] holds the
    piece being read, reversed. *)
Fixpoint split_go (sep s : jsstring) (skip : nat) (cur : jsstring)
  : list jsstring :=
  match s with
  | [] => [rev cur]
  | c :: s' =>
      match skip with
      | S k => split_go sep s' k cur
      | O =>
          if startsWith s sep
          then rev cur :: split_go sep s' (Nat.pred (length sep)) []
          else split_go sep s' O (c :: cur)
      end
  end.

Definition split (s sep : jsstring) : list jsstring := split_go sep s O [].

(** The order of [Array.prototype.sort] without a comparator: strings are
    compared code unit by code unit, a proper prefix coming first. *)
Fixpoint str_leb (a b : jsstring) : bool :=
  match a, b with
  | [], _ => true
  | _ :: _, [] => false
  | x :: a', y :: b' =>
      if x <? y then true else if y <? x then false else str_leb a' b'
  end.

Definition str_le (a b : jsstring) : Prop := str_leb a b = true.

#[global] Instance str_le_dec a b : Decision (str_le a b).
Proof. unfold str_le. apply _. Defined.

(** [arr.sort()] on an array of strings.  The language leaves the algorithm
    to the engine; the order is total and antisymmetric, so every sorting
    algorithm returns the same array (see [sort_perm]). *)
Definition sort (l : list jsstring) : list jsstring := merge_sort str_le l.

(** [arr.join(sep)]. *)
Fixpoint join (sep : jsstring) (l : list jsstring) : jsstring :=
  match l with
  | [] => []
  | [x] => x
  | x :: l' => x ++ sep ++ join sep l'
  end.

End JS.
Export JS.

(** ** The parsed document

    [cheerio.load(html)] and the selector queries belong to the cheerio
    library.  A [page] holds what the program's queries return on the loaded
    document, in document order. *)

Module Dom.

(** One [td] of a row. *)
Record cell := Cell {
  first_text : jsstring;    (* $(td).contents().first().text() *)
  text : jsstring;          (* $(td).text() *)
  zbior : list jsstring     (* $(td).find('.zbior'): the inner HTML of each match *)
}.

(** A table row, given by [$(row).find('td')]. *)
Definition row := list cell.

(** A [.dzielnica] element. *)
Record district := District {
  h3 : jsstring;            (* $(district).find('h3.dzielnicaopen').text() *)
  awarie_rows : list row    (* $(district).find('.awarie tbody tr:not(.headrow)') *)
}.

Record page := Page {
  dzielnica : list district;    (* $('.dzielnica') *)
  awarie : option (list row)    (* $('#awarie'): None when the selection is
                                   empty, else its find('tbody tr') *)
}.

(** [$(cells[i])] of an index outside the row wraps [undefined]: its
    texts are empty and it has no descendants. *)
Definition no_cell : cell := Cell [] [] [].

Definition at_index (cells : row) (i : nat) : cell := nth i cells no_cell.

(** [$(cells).find('.zbior')]. *)
Definition find_zbior (cells : row) : list jsstring := flat_map zbior cells.

End Dom.
Export Dom.

(** ** Effects *)

Module Effects.

(** A settled promise. *)
Inductive settled (A : Type) :=
| resolved (a : A)
| rejected (message : jsstring).
Arguments resolved {A} a.
Arguments rejected {A} message.

(** An item of the DynamoDB table, under its [outageKey].  The table holds
    items of this shape; a read that cannot be served, whatever the cause,
    is a fault of the outside ([get_fault] below). *)
Record item := Item { outageData : jsstring; lastUpdated : jsstring }.

(** What the program does to the outside, in order. *)
Inductive event :=
| ConsoleLog (msg : jsstring)
| ConsoleError (args : list jsstring)
| HttpGet (url : jsstring)
| HttpPost (url chat_id text : jsstring)
| GetItem (table key : jsstring)
| PutItem (table key : jsstring) (it : item).

(** The outside during one invocation. A fault is the [error.message] the
    rejected promise carries. *)
Record env := Env {
  TELEGRAM_BOT_TOKEN : option jsstring;   (* process.env, None: undefined *)
  TELEGRAM_CHAT_ID : option jsstring;
  http_get : jsstring -> settled jsstring;               (* url; response.data *)
  http_post : jsstring -> jsstring -> jsstring -> settled unit; (* url chat_id text *)
  cheerio_load : jsstring -> page;
  get_fault : jsstring -> option jsstring;               (* key *)
  put_fault : jsstring -> option jsstring;               (* key *)
  now : jsstring -> jsstring    (* new Date().toISOString() when the item
                                   for a key is built *)
}.

(** [!v] for an environment variable. *)
Definition unset (v : option jsstring) : bool :=
  match v with None => true | Some s => falsy s end.

Definition env_string (v : option jsstring) : jsstring :=
  match v with None => [] | Some s => s end.

(** Synchronous code that only writes to the console. *)
Definition logged (A : Type) : Type := A * list event.

#[global] Instance logged_ret : MRet logged := fun A a => (a, []).
#[global] Instance logged_bind : MBind logged := fun A B f m =>
  let r := f (fst m) in (fst r, snd m ++ snd r).

(** Asynchronous code: it reads and updates the table and leaves a trace. *)
Definition io (A : Type) : Type :=
  gmap jsstring item -> A * gmap jsstring item * list event.

#[global] Instance io_ret : MRet io := fun A a t => (a, t, []).
#[global] Instance io_bind : MBind io := fun A B f m t =>
  let '(a, t1, tr1) := m t in
  let '(b, t2, tr2) := f a t1 in
  (b, t2, tr1 ++ tr2).

Definition sync {A} (m : logged A) : io A := fun t => (fst m, t, snd m).

Definition console_log (msg : jsstring) : logged unit := (tt, [ConsoleLog msg]).
Definition console_error (args : list jsstring) : logged unit :=
  (tt, [ConsoleError args]).

(** [xs.each((i, x) => ...)] and [xs.forEach(x => ...)], the variables the
    callback assigns being threaded as [s]. *)
Fixpoint forEach {A S : Type} (f : S -> A -> logged S) (s : S) (xs : list A)
  : logged S :=
  match xs with
  | [] => mret s
  | x :: xs' => s' ← f s x; forEach f s' xs'
  end.

Section calls.
Variable E : env.

(** [await axios.get(url, ...)]. *)
Definition axios_get (url : jsstring) : io (settled jsstring) :=
  fun t => (http_get E url, t, [HttpGet url]).

(** [await axios.post(url, {chat_id, text, parse_mode: 'HTML'})]. *)
Definition axios_post (url chat_id text : jsstring) : io (settled unit) :=
  fun t => (http_post E url chat_id text, t, [HttpPost url chat_id text]).

(** [await dynamoClient.send(new GetItemCommand(...))]: [data.Item]. *)
Definition send_GetItem (table key : jsstring) : io (settled (option item)) :=
  fun t =>
    (match get_fault E key with
     | Some msg => rejected msg
     | None => resolved (t !! key)
     end, t, [GetItem table key]).

(** [await dynamoClient.send(new PutItemCommand(...))]: the item replaces
    the one under its key, unless the command is rejected. *)
Definition send_PutItem (table key : jsstring) (it : item) : io (settled unit) :=
  fun t =>
    match put_fault E key with
    | Some msg => (rejected msg, t, [PutItem table key it])
    | None => (resolved tt, <[key := it]> t, [PutItem table key it])
    end.
End calls.

(** The response of the Lambda function. *)
Record response := Response {
  statusCode : N;
  body : jsstring;
  newOutages : option jsstring
}.

Definition dquote : jsstring := [34].

End Effects.
Export Effects.

(** The [.zbior] markup as a sorted list of addresses:
    [html.split('<br>').map(addr => addr.trim()).filter(addr => addr).sort()]. *)
Definition addresses_of (html : jsstring) : list jsstring :=
  sort (List.filter (fun addr => negb (falsy addr))
          (map (fun addr => trim addr) (split html (lit "<br>")))).

(** [!v] for a value that is a string or [null]. *)
Definition falsy_opt (v : option jsstring) : bool :=
  match v with None => true | Some s => falsy s end.

(** [a === b] where [b] is a string or [null]. *)
Definition strict_eq (a : jsstring) (b : option jsstring) : bool :=
  match b with None => false | Some s => str_eqb a s end.

(** ** [src/index.js]: the single-category variant *)

Module Index.

Definition URL : jsstring := lit "https://www.mpwik.com.pl/view/planowane".
Definition DISTRICT_NAME : jsstring := lit "Warszawa URSUS".
Definition DYNAMO_TABLE_NAME : jsstring := lit "WaterOutagesUrsus".
Definition DYNAMO_PRIMARY_KEY : jsstring := lit "LATEST_URSUS_OUTAGES".

(** The first element pushed to [outages]. *)
Definition heading : jsstring := lit "Wyłączenia planowane:" ++ nl ++ nl.

(** The callback of [addresses.forEach]. *)
Definition address_callback (entry address : jsstring) : logged jsstring :=
  console_log (lit "Address: " ++ address);;
  mret (entry ++ lit "- " ++ address ++ nl).

(** The callback of the iteration over the rows of a district. *)
Definition row_callback (outages : list jsstring) (cells : row)
  : logged (list jsstring) :=
  if (4 <? length cells)%nat then
    let place := trim (first_text (at_index cells 0)) in
    let from := trim (text (at_index cells 1)) in
    let to := trim (text (at_index cells 2)) in
    let entry := lit "<strong>" ++ place ++ lit "</strong> (z " ++ from
                 ++ lit " do " ++ to ++ lit ")" ++ nl in
    entry ← match find_zbior cells with
            | [] => mret entry
            | html :: _ => forEach address_callback entry (addresses_of html)
            end;
    mret (outages ++ [entry])
  else mret outages.

(** The callback of [districts.each]; it assigns [output]. *)
Definition district_callback (output : jsstring) (d : district)
  : logged jsstring :=
  if startsWith (trim (h3 d)) DISTRICT_NAME then
    outages ← forEach row_callback [heading] (awarie_rows d);
    mret (join nl outages)
  else mret output.

Section program.
Variable E : env.

Definition parseOutages (html : jsstring) : logged jsstring :=
  forEach district_callback [] (dzielnica (cheerio_load E html)).

Definition sendTelegramMessage (text : jsstring) : io unit :=
  if unset (TELEGRAM_BOT_TOKEN E) || unset (TELEGRAM_CHAT_ID E) then
    sync (console_error
      [lit "Telegram Bot Token or Chat ID is not configured. Skipping notification."])
  else
    let url := lit "https://api.telegram.org/bot"
               ++ env_string (TELEGRAM_BOT_TOKEN E) ++ lit "/sendMessage" in
    r ← axios_post E url (env_string (TELEGRAM_CHAT_ID E)) text;
    match r with
    | resolved _ => sync (console_log (lit "Successfully sent message to Telegram."))
    | rejected msg =>
        sync (console_error [lit "Error sending message to Telegram:"; msg])
    end.

(** The result is [None] for [null]. *)
Definition fetchHtmlContent : io (option jsstring) :=
  r ← axios_get E URL;
  match r with
  | resolved data => mret (Some data)
  | rejected msg =>
      sync (console_error [lit "Error fetching HTML:"; msg]);;
      mret None
  end.

Definition getPreviousOutages : io (option jsstring) :=
  r ← send_GetItem E DYNAMO_TABLE_NAME DYNAMO_PRIMARY_KEY;
  match r with
  | resolved data =>
      mret (Some (match data with Some it => outageData it | None => [] end))
  | rejected msg =>
      sync (console_error [lit "Error getting item from DynamoDB:"; msg]);;
      mret None
  end.

Definition saveNewOutages (text : jsstring) : io unit :=
  let it := Item text (now E DYNAMO_PRIMARY_KEY) in
  r ← send_PutItem E DYNAMO_TABLE_NAME DYNAMO_PRIMARY_KEY it;
  match r with
  | resolved _ =>
      sync (console_log (lit "Successfully saved new outage data to DynamoDB."))
  | rejected msg =>
      sync (console_error [lit "Error saving item to DynamoDB:"; msg])
  end.

Definition handler : io response :=
  sync (console_log (lit "Fetching latest water outage data..."));;
  html ← fetchHtmlContent;
  if falsy_opt html then
    mret (Response 500 (lit "Failed to fetch HTML content.") None)
  else
    sync (console_log (lit "Parsing HTML and extracting outage information..."));;
    currentOutagesText ← sync (parseOutages (env_string html));
    if falsy currentOutagesText then
      sync (console_log (lit "No outages found for the specified district."));;
      mret (Response 200 (lit "No outages found.") None)
    else
      sync (console_log (lit "Fetching previous outage data from DynamoDB..."));;
      previousOutages ← getPreviousOutages;
      if strict_eq currentOutagesText previousOutages then
        sync (console_log (lit "No changes detected. Exiting."));;
        mret (Response 200 (lit "No new water outages.") None)
      else
        sync (console_log
          (lit "New outage data detected. Sending notification and updating DynamoDB."));;
        sendTelegramMessage currentOutagesText;;
        saveNewOutages currentOutagesText;;
        mret (Response 200
                (lit "New water outage data found, notified, and saved.")
                (Some currentOutagesText)).
End program.

End Index.

(** ** [src/unnamed/part_000]: the two-category variant *)

Module Part000.

Definition DISTRICT_NAME : jsstring := lit "Warszawa URSUS".
Definition DYNAMO_TABLE_NAME : jsstring := lit "WaterOutagesUrsus".

(** The two objects of [OUTAGE_TYPES]; [===] on them is identity. *)
Inductive outage_type := EMERGENCY | PLANNED.

Definition url (c : outage_type) : jsstring :=
  match c with
  | EMERGENCY => lit "https://www.mpwik.com.pl/view/awarie"
  | PLANNED => lit "https://www.mpwik.com.pl/view/planowane"
  end.

Definition dbKey (c : outage_type) : jsstring :=
  match c with
  | EMERGENCY => lit "LATEST_URSUS_EMERGENCY_OUTAGES"
  | PLANNED => lit "LATEST_URSUS_PLANNED_OUTAGES"
  end.

Definition header (c : outage_type) : jsstring :=
  match c with
  | EMERGENCY => lit "Wyłączenia awaryjne"
  | PLANNED => lit "Wyłączenia planowane"
  end.

Definition is_emergency (c : outage_type) : bool :=
  match c with EMERGENCY => true | PLANNED => false end.

Definition no_outages_line (c : outage_type) : event :=
  ConsoleLog (lit "No outages found for " ++ dquote ++ header c ++ dquote
              ++ lit " in the specified district.").
Definition no_changes_line (c : outage_type) : event :=
  ConsoleLog (lit "No changes detected for " ++ header c ++ lit ".").
Definition new_data_line (c : outage_type) : event :=
  ConsoleLog (lit "New data detected for " ++ header c
              ++ lit ". Notifying and updating state.").

(** The callback of [addresses.forEach], in both parsers. *)
Definition address_callback (entry address : jsstring) : logged jsstring :=
  mret (entry ++ lit "- " ++ address ++ nl).

(** The row callback of [parseOutages]. *)
Definition row_callback (outages : list jsstring) (cells : row)
  : logged (list jsstring) :=
  if (4 <? length cells)%nat then
    let place := trim (first_text (at_index cells 0)) in
    let from := trim (text (at_index cells 1)) in
    let to := trim (text (at_index cells 2)) in
    let entry := lit "<strong>" ++ place ++ lit "</strong> (od " ++ from
                 ++ lit " do " ++ to ++ lit ")" ++ nl in
    entry ← match find_zbior cells with
            | [] => mret entry
            | html :: _ => forEach address_callback entry (addresses_of html)
            end;
    mret (outages ++ [entry])
  else mret outages.

(** The callback of [districts.each] in [parseOutages]. *)
Definition district_callback (output : jsstring) (d : district)
  : logged jsstring :=
  if startsWith (trim (h3 d)) DISTRICT_NAME then
    outages ← forEach row_callback [] (awarie_rows d);
    mret (join nl (sort outages))
  else mret output.

(** The row callback of [parseEmergencyOutages]. *)
Definition emergency_row_callback (outages : list jsstring) (cells : row)
  : logged (list jsstring) :=
  if (5 <=? length cells)%nat then
    let address := trim (first_text (at_index cells 0)) in
    console_log (lit "Address: " ++ address);;
    let outageTime := trim (text (at_index cells 2)) in
    console_log (lit "From: " ++ outageTime);;
    let expectedResolution := trim (text (at_index cells 3)) in
    console_log (lit "To: " ++ expectedResolution);;
    let status := trim (text (at_index cells 4)) in
    console_log (lit "Status: " ++ status);;
    let statusText :=
      if str_eqb status (lit "w toku") then lit "w trakcie" else status in
    let timeInfo := lit "(od " ++ outageTime in
    let timeInfo :=
      if falsy expectedResolution
      then timeInfo ++ lit ", czas usunięcia nieznany)"
      else timeInfo ++ lit " do " ++ expectedResolution ++ lit ")" in
    let entry := lit "<strong>" ++ address ++ lit "</strong> " ++ timeInfo
                 ++ lit " - " ++ statusText ++ nl in
    entry ← match zbior (at_index cells 1) with
            | [] => mret entry
            | html :: _ => forEach address_callback entry (addresses_of html)
            end;
    mret (outages ++ [entry])
  else mret outages.

Section program.
Variable E : env.

Definition parseOutages (html : jsstring) : logged jsstring :=
  forEach district_callback [] (dzielnica (cheerio_load E html)).

Definition parseEmergencyOutages (html : jsstring) : logged jsstring :=
  match awarie (cheerio_load E html) with
  | Some rows =>
      outages ← forEach emergency_row_callback [] rows;
      mret (join nl (sort outages))
  | None => mret []
  end.

Definition sendTelegramMessage (text : jsstring) : io unit :=
  if unset (TELEGRAM_BOT_TOKEN E) || unset (TELEGRAM_CHAT_ID E) then
    sync (console_error
      [lit "Telegram Bot Token or Chat ID is not configured. Skipping notification."])
  else
    let url := lit "https://api.telegram.org/bot"
               ++ env_string (TELEGRAM_BOT_TOKEN E) ++ lit "/sendMessage" in
    r ← axios_post E url (env_string (TELEGRAM_CHAT_ID E)) text;
    match r with
    | resolved _ => sync (console_log (lit "Successfully sent message to Telegram."))
    | rejected msg =>
        sync (console_error [lit "Error sending message to Telegram:"; msg])
    end.

Definition fetchHtmlContent (url : jsstring) : io (option jsstring) :=
  r ← axios_get E url;
  match r with
  | resolved data => mret (Some data)
  | rejected msg =>
      sync (console_error [lit "Error fetching HTML from " ++ url ++ lit ":"; msg]);;
      mret None
  end.

Definition getPreviousOutages (dbKey : jsstring) : io (option jsstring) :=
  r ← send_GetItem E DYNAMO_TABLE_NAME dbKey;
  match r with
  | resolved data =>
      mret (Some (match data with Some it => outageData it | None => [] end))
  | rejected msg =>
      sync (console_error
        [lit "Error getting item with key " ++ dbKey ++ lit " from DynamoDB:"; msg]);;
      mret None
  end.

Definition saveNewOutages (dbKey text : jsstring) : io unit :=
  let it := Item text (now E dbKey) in
  r ← send_PutItem E DYNAMO_TABLE_NAME dbKey it;
  match r with
  | resolved _ =>
      sync (console_log
        (lit "Successfully saved new data with key " ++ dbKey ++ lit " to DynamoDB."))
  | rejected msg =>
      sync (console_error
        [lit "Error saving item with key " ++ dbKey ++ lit " to DynamoDB:"; msg])
  end.

Definition processOutages (outageConfig : outage_type) : io unit :=
  sync (console_log (lit "Processing: " ++ header outageConfig));;
  html ← fetchHtmlContent (url outageConfig);
  if falsy_opt html then
    sync (console_error [lit "Failed to fetch HTML for " ++ header outageConfig])
  else
    currentOutagesText ←
      sync (if is_emergency outageConfig
            then parseEmergencyOutages (env_string html)
            else parseOutages (env_string html));
    if falsy currentOutagesText then
      sync (console_log
        (lit "No outages found for " ++ dquote ++ header outageConfig ++ dquote
         ++ lit " in the specified district."))
    else
      previousOutages ← getPreviousOutages (dbKey outageConfig);
      if strict_eq currentOutagesText previousOutages then
        sync (console_log
          (lit "No changes detected for " ++ header outageConfig ++ lit "."))
      else
        sync (console_log
          (lit "New data detected for " ++ header outageConfig
           ++ lit ". Notifying and updating state."));;
        let message := lit "<b>" ++ header outageConfig ++ lit "</b>" ++ nl
                       ++ currentOutagesText in
        sendTelegramMessage message;;
        saveNewOutages (dbKey outageConfig) currentOutagesText.

Definition handler : io response :=
  sync (console_log (lit "Starting water outage check..."));;
  processOutages EMERGENCY;;
  processOutages PLANNED;;
  sync (console_log (lit "Water outage check finished."));;
  mret (Response 200 (lit "Check complete.") None).
End program.

End Part000.

(** ** Observations on a run *)

Module Observe.

(** The value and the console output of synchronous code. *)
Definition value {A} (m : logged A) : A := fst m.
Definition console {A} (m : logged A) : list event := snd m.

(** The final table and the trace of asynchronous code run on a table. *)
Definition table_after {A} (r : A * gmap jsstring item * list event)
  : gmap jsstring item := snd (fst r).
Definition trace {A} (r : A * gmap jsstring item * list event)
  : list event := snd r.
Definition returned {A} (r : A * gmap jsstring item * list event) : A :=
  fst (fst r).

Definition is_post (e : event) : bool :=
  match e with HttpPost _ _ _ => true | _ => false end.
Definition is_put (e : event) : bool :=
  match e with PutItem _ _ _ => true | _ => false end.
Definition is_get (e : event) : bool :=
  match e with GetItem _ _ => true | _ => false end.
Definition is_error (e : event) : bool :=
  match e with ConsoleError _ => true | _ => false end.
Definition is_log (e : event) : bool :=
  match e with ConsoleLog _ => true | _ => false end.

(** The requests sent to Telegram, the writes sent to DynamoDB, the reads
    sent to DynamoDB and the lines written by [console.error]. *)
Definition posts (tr : list event) : list event := List.filter is_post tr.
Definition puts (tr : list event) : list event := List.filter is_put tr.
Definition gets (tr : list event) : list event := List.filter is_get tr.
Definition errors (tr : list event) : list event := List.filter is_error tr.

(** No notification and no store write. *)
Definition quiet (tr : list event) : Prop := posts tr = [] ∧ puts tr = [].

End Observe.
Export Observe.

(** ** Sample documents *)

Module Sample.

Definition td (s : string) : cell := Cell (lit s) (lit s) [].
Definition td_zbior (s : string) : cell := Cell [] (lit s) [lit s].

(** Two planned rows whose sub-addresses come unsorted, and a decoration
    row of a single cell. *)
Definition row1 : row :=
  [td "Zagłoby"; td "2025-07-21 08:00"; td "2025-07-21 16:00";
   td_zbior " B <br>A<br>"; td ""].
Definition row2 : row :=
  [td "Cierlicka"; td "2025-07-22 09:00"; td "2025-07-22 12:00";
   td_zbior "D<br>C"; td ""].
Definition short_row : row := [td "Miejsce"].

Definition ursus (rows : list row) : district :=
  District (lit " Warszawa URSUS (2) ") rows.
Definition bemowo : district := District (lit "Warszawa BEMOWO") [row2].

(** Two emergency rows, one with and one without an expected resolution. *)
Definition erow1 : row :=
  [td "Keniga 5"; td_zbior "Keniga 7<br>Keniga 3"; td "2025-07-21 10:15";
   td "2025-07-21 18:00"; td "w toku"].
Definition erow2 : row :=
  [td "Dzieci Warszawy 1"; td ""; td "2025-07-21 11:00"; td " ";
   td "zgłoszona"].

(** An outside whose two pages are served under fixed bodies. *)
Definition page_of (planned : list district) (emergency : option (list row))
  : page := Page planned emergency.

Definition outside (p : page) (get put : option jsstring)
  (post : settled unit) : env :=
  Env (Some (lit "123:token")) (Some (lit "42"))
      (fun _ => resolved (lit "<html>"))
      (fun _ _ _ => post)
      (fun _ => p)
      (fun _ => get)
      (fun _ => put)
      (fun _ => lit "2025-07-21T06:00:00.000Z").


(** A document with both sections filled, and outsides that serve it. *)
Definition doc : page :=
  page_of [bemowo; ursus [row1; short_row; row2]]
          (Some [erow1; short_row; erow2]).

Definition calm : env := outside doc None None (resolved tt).
Definition read_down : env :=
  outside doc (Some (lit "read timed out")) None (resolved tt).
Definition telegram_down : env :=
  outside doc None None (rejected (lit "ETIMEDOUT")).
Definition write_down : env :=
  outside doc None (Some (lit "throttled")) (resolved tt).

(** Documents without the district, and with the district but no row of
    enough cells. *)
Definition no_section : env :=
  outside (page_of [bemowo] None) None None (resolved tt).
Definition row_free : env :=
  outside (page_of [bemowo; ursus [short_row]] (Some [short_row]))
          None None (resolved tt).

(** The same two rows in the two orders. *)
Definition rows_12 : env :=
  outside (page_of [ursus [row1; row2]] None) None None (resolved tt).
Definition rows_21 : env :=
  outside (page_of [ursus [row2; row1]] None) None None (resolved tt).

End Sample.

(** * Properties *)

(** Literals stay folded in the proofs; examples evaluate them with the
    virtual machine. *)
#[global] Opaque lit.

(** ** Strings and sorting *)

Section order.

Lemma str_leb_refl a : str_leb a a = true.
Proof.
  induction a as [|x a IH]; simpl; [done|].
  rewrite N.ltb_irrefl. exact IH.
Qed.

Lemma str_leb_total a b : str_leb a b = true ∨ str_leb b a = true.
Proof.
  revert b. induction a as [|x a IH]; intros [|y b]; simpl; auto.
  destruct (N.ltb_spec x y), (N.ltb_spec y x); auto; lia.
Qed.

Lemma str_leb_trans a b c :
  str_leb a b = true → str_leb b c = true → str_leb a c = true.
Proof.
  revert b c. induction a as [|x a IH]; intros [|y b] [|z c]; simpl; auto;
    try discriminate.
  destruct (N.ltb_spec x y), (N.ltb_spec y x), (N.ltb_spec y z),
    (N.ltb_spec z y), (N.ltb_spec x z), (N.ltb_spec z x);
    try discriminate; try lia; eauto.
Qed.

Lemma str_leb_antisym a b :
  str_leb a b = true → str_leb b a = true → a = b.
Proof.
  revert b. induction a as [|x a IH]; intros [|y b]; simpl; auto;
    try discriminate.
  destruct (N.ltb_spec x y), (N.ltb_spec y x); try discriminate; try lia.
  intros Hab Hba. f_equal; [lia | auto].
Qed.

#[global] Instance str_le_total : Total str_le.
Proof. intros a b. apply str_leb_total. Qed.

#[global] Instance str_le_trans : Transitive str_le.
Proof. intros a b c. apply str_leb_trans. Qed.

#[global] Instance str_le_antisym : AntiSymm (=) str_le.
Proof. intros a b. apply str_leb_antisym. Qed.

(** The sorted array is sorted and holds the same elements. *)
Lemma sort_sorted l : Sorted str_le (sort l).
Proof. apply Sorted_merge_sort, _. Qed.

Lemma sort_permutation l : sort l ≡ₚ l.
Proof. apply merge_sort_Permutation. Qed.

(** Sorting forgets the order the elements came in. *)
Lemma sort_perm l l' : l ≡ₚ l' → sort l = sort l'.
Proof.
  intros H. apply (Sorted_unique str_le); try apply sort_sorted.
  by rewrite !sort_permutation.
Qed.

Lemma str_eqb_eq a b : str_eqb a b = true ↔ a = b.
Proof.
  revert b. induction a as [|x a IH]; intros [|y b]; simpl; split;
    try done.
  - intros [Hx Hab]%andb_prop. apply N.eqb_eq in Hx. apply IH in Hab.
    by subst.
  - intros [= -> ->]. rewrite N.eqb_refl. by apply IH.
Qed.

Lemma str_eqb_refl a : str_eqb a a = true.
Proof. by apply str_eqb_eq. Qed.

Lemma str_eqb_neq a b : a ≠ b → str_eqb a b = false.
Proof.
  intros H. destruct (str_eqb a b) eqn:Heq; [|done].
  by apply str_eqb_eq in Heq.
Qed.

Lemma falsy_nil s : falsy s = true ↔ s = [].
Proof. by destruct s. Qed.

Lemma falsy_false s : falsy s = false ↔ s ≠ [].
Proof. by destruct s. Qed.

Lemma join_nonempty sep x l : x ≠ [] → join sep (x :: l) ≠ [].
Proof. destruct x, l; simpl; congruence. Qed.

End order.

(** The string operations on small inputs. *)
Example lit_polish :
  lit "Wyłączenia" = [87; 121; 322; 261; 99; 122; 101; 110; 105; 97].
Proof. by vm_compute. Qed.

Example split_br :
  split (lit " B <br>A<br><br>") (lit "<br>") = [lit " B "; lit "A"; []; []]
  ∧ split [] (lit "<br>") = [[]].
Proof. by vm_compute. Qed.

Example trim_spaces : trim (9 :: 32 :: lit "a b" ++ [160; 10]) = lit "a b".
Proof. by vm_compute. Qed.

Example sort_code_units :
  sort [lit "b"; lit "a"; lit "B"; lit "ab"; lit "ł"]
  = [lit "B"; lit "a"; lit "ab"; lit "b"; lit "ł"].
Proof. by vm_compute. Qed.

Example join_blank_line : join nl [lit "x"; lit "y"] = lit "x" ++ nl ++ lit "y".
Proof. by vm_compute. Qed.

(** ** Iteration *)

Section iteration.
Context {A S : Type} (f : S → A → logged S).

Lemma forEach_value s xs :
  value (forEach f s xs) = fold_left (fun s x => value (f s x)) xs s.
Proof.
  revert s. induction xs as [|x xs IH]; intros s; [done|].
  simpl. apply IH.
Qed.

Lemma forEach_console_logs s xs :
  (∀ s x, Forall (fun e => is_log e = true) (console (f s x))) →
  Forall (fun e => is_log e = true) (console (forEach f s xs)).
Proof.
  intros Hf. revert s. induction xs as [|x xs IH]; intros s; simpl.
  - constructor.
  - apply Forall_app; split; [apply Hf | apply IH].
Qed.
End iteration.

(** An array built by pushing: when the callback only appends what the
    element contributes, the array is the concatenation of the
    contributions. *)
Lemma forEach_push {A B} (f : list B → A → logged (list B)) acc xs :
  (∀ acc x, value (f acc x) = acc ++ value (f [] x)) →
  value (forEach f acc xs) = acc ++ flat_map (fun x => value (f [] x)) xs.
Proof.
  intros Hf. revert acc. induction xs as [|x xs IH]; intros acc; simpl.
  - by rewrite app_nil_r.
  - unfold value in *. simpl. rewrite IH, Hf. by rewrite <-app_assoc.
Qed.

(** ** The parsers of the two-category variant *)

Module Part000Parse.
Import Part000.

(** The lines an entry gets for its addresses. *)
Definition address_lines (addresses : list jsstring) : jsstring :=
  concat (map (fun address => lit "- " ++ address ++ nl) addresses).

Lemma addresses_value entry addresses :
  value (forEach address_callback entry addresses)
  = entry ++ address_lines addresses.
Proof.
  revert entry. induction addresses as [|a l IH]; intros entry; simpl.
  - by rewrite app_nil_r.
  - unfold value in *. simpl. rewrite IH. unfold address_lines. simpl.
    by rewrite <-!app_assoc.
Qed.

Lemma addresses_console entry addresses :
  console (forEach address_callback entry addresses) = [].
Proof.
  revert entry. induction addresses as [|a l IH]; intros entry; [done|].
  unfold console in *. simpl. apply IH.
Qed.

(** What one row contributes to [outages]. *)
Definition planned_record (cells : row) : list jsstring :=
  value (row_callback [] cells).
Definition emergency_record (cells : row) : list jsstring :=
  value (emergency_row_callback [] cells).

Lemma row_callback_push acc cells :
  value (row_callback acc cells) = acc ++ planned_record cells.
Proof.
  unfold planned_record, row_callback.
  destruct (4 <? length cells)%nat; simpl; [|by rewrite app_nil_r].
  by destruct (find_zbior cells).
Qed.

Lemma emergency_row_callback_push acc cells :
  value (emergency_row_callback acc cells) = acc ++ emergency_record cells.
Proof.
  unfold emergency_record, emergency_row_callback.
  destruct (5 <=? length cells)%nat; simpl; [|by rewrite app_nil_r].
  by destruct (zbior (at_index cells 1)).
Qed.

Lemma planned_outages acc rows :
  value (forEach row_callback acc rows) = acc ++ flat_map planned_record rows.
Proof. apply (forEach_push row_callback), row_callback_push. Qed.

Lemma emergency_outages acc rows :
  value (forEach emergency_row_callback acc rows)
  = acc ++ flat_map emergency_record rows.
Proof.
  apply (forEach_push emergency_row_callback), emergency_row_callback_push.
Qed.

Lemma planned_record_short cells :
  (length cells ≤ 4)%nat → planned_record cells = [].
Proof.
  intros H. unfold planned_record, row_callback.
  destruct (Nat.ltb_spec 4 (length cells)); [lia | done].
Qed.

Lemma planned_record_long cells :
  (4 < length cells)%nat →
  ∃ entry, planned_record cells = [entry] ∧ entry ≠ [].
Proof.
  intros H. unfold planned_record, row_callback.
  destruct (Nat.ltb_spec 4 (length cells)); [|lia].
  destruct (find_zbior cells) as [|html ?]; simpl.
  - eexists; split; [reflexivity | done].
  - eexists; split; [reflexivity|].
    change (fst ?m) with (value m). by rewrite addresses_value.
Qed.

Lemma emergency_record_short cells :
  (length cells < 5)%nat → emergency_record cells = [].
Proof.
  intros H. unfold emergency_record, emergency_row_callback.
  destruct (Nat.leb_spec 5 (length cells)); [lia | done].
Qed.

Lemma emergency_record_long cells :
  (5 ≤ length cells)%nat →
  ∃ entry, emergency_record cells = [entry] ∧ entry ≠ [].
Proof.
  intros H. unfold emergency_record, emergency_row_callback.
  destruct (Nat.leb_spec 5 (length cells)); [|lia].
  destruct (zbior (at_index cells 1)) as [|html ?]; simpl.
  - eexists; split; [reflexivity | done].
  - eexists; split; [reflexivity|].
    change (fst ?m) with (value m). by rewrite addresses_value.
Qed.

Lemma flat_map_filter {A B} (f : A → list B) (p : A → bool) l :
  (∀ x, p x = false → f x = []) →
  flat_map f l = flat_map f (List.filter p l).
Proof.
  intros H. induction l as [|x l IH]; simpl; [done|].
  destruct (p x) eqn:Hp; simpl; [by rewrite IH|].
  by rewrite (H _ Hp).
Qed.

Lemma flat_map_singletons {A B} (f : A → list B) (g : A → B) l :
  Forall (fun x => f x = [g x]) l → flat_map f l = map g l.
Proof.
  induction 1 as [|x l Hx _ IH]; simpl; [done|]. by rewrite Hx, IH.
Qed.

(** The value of the district callback. *)
Lemma district_callback_value output d :
  value (district_callback output d)
  = if startsWith (trim (h3 d)) DISTRICT_NAME
    then join nl (sort (flat_map planned_record (awarie_rows d)))
    else output.
Proof.
  unfold district_callback.
  destruct (startsWith (trim (h3 d)) DISTRICT_NAME); [|done].
  change (value (mbind ?f ?m)) with (value (f (value m))).
  by rewrite planned_outages.
Qed.

Lemma parseEmergencyOutages_value E html :
  value (parseEmergencyOutages E html)
  = match awarie (cheerio_load E html) with
    | Some rows => join nl (sort (flat_map emergency_record rows))
    | None => []
    end.
Proof.
  unfold parseEmergencyOutages.
  destruct (awarie (cheerio_load E html)) as [rows|]; [|done].
  change (value (mbind ?f ?m)) with (value (f (value m))).
  by rewrite emergency_outages.
Qed.

Lemma parseOutages_value E html :
  value (parseOutages E html)
  = fold_left (fun output d => value (district_callback output d))
      (dzielnica (cheerio_load E html)) [].
Proof. apply forEach_value. Qed.

(** A sorted array of non-empty entries joins to the empty string only when
    it is empty. *)
Lemma join_sort_empty l :
  Forall (fun entry => entry ≠ []) l → join nl (sort l) = [] → l = [].
Proof.
  intros Hl Hj. destruct (sort l) as [|x s] eqn:Hs.
  - pose proof (sort_permutation l) as Hp. rewrite Hs in Hp.
    by apply Permutation_nil.
  - exfalso. revert Hj. apply join_nonempty.
    assert (Hx : x ∈ l).
    { rewrite <-(sort_permutation l), Hs. apply list_elem_of_here. }
    by apply (proj1 (List.Forall_forall _ _) Hl), list_elem_of_In.
Qed.

End Part000Parse.

(** ** The parser of the single-category variant *)

Module IndexParse.
Import Index.

Definition index_address_lines := Part000Parse.address_lines.

Lemma index_addresses_value entry addresses :
  value (forEach address_callback entry addresses)
  = entry ++ index_address_lines addresses.
Proof.
  revert entry. induction addresses as [|a l IH]; intros entry; simpl.
  - by rewrite app_nil_r.
  - unfold value in *. simpl. rewrite IH.
    unfold index_address_lines, Part000Parse.address_lines. simpl.
    by rewrite <-!app_assoc.
Qed.

Lemma index_addresses_console entry addresses :
  Forall (fun e => is_log e = true)
    (console (forEach address_callback entry addresses)).
Proof.
  apply forEach_console_logs. intros s x. by repeat constructor.
Qed.

(** What one row contributes to [outages]. *)
Definition index_planned_record (cells : row) : list jsstring :=
  value (row_callback [] cells).

Lemma index_row_callback_push acc cells :
  value (row_callback acc cells) = acc ++ index_planned_record cells.
Proof.
  unfold index_planned_record, row_callback.
  destruct (4 <? length cells)%nat; simpl; [|by rewrite app_nil_r].
  by destruct (find_zbior cells).
Qed.

Lemma index_planned_outages acc rows :
  value (forEach row_callback acc rows) = acc ++ flat_map index_planned_record rows.
Proof. apply (forEach_push row_callback), index_row_callback_push. Qed.

Lemma index_planned_record_short cells :
  (length cells ≤ 4)%nat → index_planned_record cells = [].
Proof.
  intros H. unfold index_planned_record, row_callback.
  destruct (Nat.ltb_spec 4 (length cells)); [lia | done].
Qed.

Lemma index_district_callback_value output d :
  value (district_callback output d)
  = if startsWith (trim (h3 d)) DISTRICT_NAME
    then join nl (heading :: flat_map index_planned_record (awarie_rows d))
    else output.
Proof.
  unfold district_callback.
  destruct (startsWith (trim (h3 d)) DISTRICT_NAME); [|done].
  change (value (mbind ?f ?m)) with (value (f (value m))).
  by rewrite index_planned_outages.
Qed.

Lemma index_parseOutages_value E html :
  value (parseOutages E html)
  = fold_left (fun output d => value (district_callback output d))
      (dzielnica (cheerio_load E html)) [].
Proof. apply forEach_value. Qed.

Lemma heading_nonempty : heading ≠ [].
Proof. by vm_compute. Qed.

(** Districts of other names leave [output] as it is. *)
Lemma index_other_districts output ds :
  Forall (fun d => startsWith (trim (h3 d)) DISTRICT_NAME = false) ds →
  fold_left (fun output d => value (district_callback output d)) ds output
  = output.
Proof.
  induction 1 as [|d ds Hd _ IH]; simpl; [done|].
  by rewrite index_district_callback_value, Hd.
Qed.

End IndexParse.

Module Part000Districts.
Import Part000 Part000Parse.

Lemma other_districts output ds :
  Forall (fun d => startsWith (trim (h3 d)) DISTRICT_NAME = false) ds →
  fold_left (fun output d => value (district_callback output d)) ds output
  = output.
Proof.
  induction 1 as [|d ds Hd _ IH]; simpl; [done|].
  by rewrite district_callback_value, Hd.
Qed.

(** The same districts with their rows in another order. *)
Definition same_rows (d d' : district) : Prop :=
  h3 d = h3 d' ∧ awarie_rows d ≡ₚ awarie_rows d'.

Lemma district_row_order output d d' :
  same_rows d d' →
  value (district_callback output d) = value (district_callback output d').
Proof.
  intros [Hh Hr]. rewrite !district_callback_value, Hh.
  destruct (startsWith (trim (h3 d')) DISTRICT_NAME); [|done].
  f_equal. apply sort_perm. unfold planned_record.
  by apply Permutation_flat_map.
Qed.

Lemma districts_row_order output ds ds' :
  Forall2 same_rows ds ds' →
  fold_left (fun output d => value (district_callback output d)) ds output
  = fold_left (fun output d => value (district_callback output d)) ds' output.
Proof.
  intros H. revert output.
  induction H as [|d d' ds ds' Hd _ IH]; intros output; simpl; [done|].
  by rewrite (district_row_order output d d' Hd), IH.
Qed.

(** In the two-category variant the report does not depend on the order of
    the rows in the document, for the planned and for the emergency page. *)
Lemma parseOutages_row_order E E' html html' :
  Forall2 same_rows (dzielnica (cheerio_load E html))
    (dzielnica (cheerio_load E' html')) →
  value (parseOutages E html) = value (parseOutages E' html').
Proof. intros H. rewrite !parseOutages_value. by apply districts_row_order. Qed.

Lemma parseEmergencyOutages_row_order E E' html html' rows rows' :
  awarie (cheerio_load E html) = Some rows →
  awarie (cheerio_load E' html') = Some rows' →
  rows ≡ₚ rows' →
  value (parseEmergencyOutages E html) = value (parseEmergencyOutages E' html').
Proof.
  intros H H' Hp. rewrite !parseEmergencyOutages_value, H, H'.
  f_equal. apply sort_perm. by apply Permutation_flat_map.
Qed.

(** The addresses of an entry come sorted. *)
Lemma addresses_sorted html : Sorted str_le (addresses_of html).
Proof. apply sort_sorted. Qed.

End Part000Districts.

(** ** Traces *)

Section traces.

(** Console lines are neither requests nor errors. *)
Lemma logs_silent l :
  Forall (fun e => is_log e = true) l →
  posts l = [] ∧ puts l = [] ∧ gets l = [] ∧ errors l = [].
Proof.
  induction 1 as [|e l He _ IH]; [done|].
  destruct e; try discriminate. exact IH.
Qed.

Lemma posts_app a b : posts (a ++ b) = posts a ++ posts b.
Proof. apply List.filter_app. Qed.
Lemma puts_app a b : puts (a ++ b) = puts a ++ puts b.
Proof. apply List.filter_app. Qed.
Lemma gets_app a b : gets (a ++ b) = gets a ++ gets b.
Proof. apply List.filter_app. Qed.
Lemma errors_app a b : errors (a ++ b) = errors a ++ errors b.
Proof. apply List.filter_app. Qed.

End traces.

(** ** The store and the notifier, as both variants use them *)

Module Shared.

(** The text stored under a key, as [getPreviousOutages] returns it when
    the read is served. *)
Definition stored (t : gmap jsstring item) (key : jsstring) : jsstring :=
  match t !! key with Some it => outageData it | None => [] end.

(** The value of [previousOutages]. *)
Definition previous (E : env) (t : gmap jsstring item) (key : jsstring)
  : option jsstring :=
  match get_fault E key with Some _ => None | None => Some (stored t key) end.

(** The request of a notification. *)
Definition telegram_post (E : env) (m : jsstring) : event :=
  HttpPost (lit "https://api.telegram.org/bot"
            ++ env_string (TELEGRAM_BOT_TOKEN E) ++ lit "/sendMessage")
           (env_string (TELEGRAM_CHAT_ID E)) m.

Lemma stored_insert t key text stamp :
  stored (<[key := Item text stamp]> t) key = text.
Proof. unfold stored. by rewrite lookup_insert_eq. Qed.

(** The fetch of a page fails: the request is rejected, or the body is the
    empty string, which [!html] takes as a failure too. *)
Definition fetch_fails (E : env) (u : jsstring) : Prop :=
  (∃ msg, http_get E u = rejected msg) ∨ http_get E u = resolved [].

Lemma stored_insert_ne t key key' text stamp :
  key ≠ key' → stored (<[key := Item text stamp]> t) key' = stored t key'.
Proof. intros H. unfold stored. by rewrite lookup_insert_ne. Qed.

End Shared.
Export Shared.

(** ** Runs of the two-category variant *)

Module Part000Run.
Import Part000 Part000Parse.

Ltac unfold_io :=
  unfold processOutages, fetchHtmlContent, getPreviousOutages,
    saveNewOutages, sendTelegramMessage, axios_get, axios_post,
    send_GetItem, send_PutItem, sync, console_log, console_error,
    mbind, io_bind, mret, io_ret.

(** The parser the category selects. *)
Definition extract (E : env) (c : outage_type) (html : jsstring)
  : logged jsstring :=
  if is_emergency c then parseEmergencyOutages E html else parseOutages E html.

(** The message sent for a category. *)
Definition message (c : outage_type) (text : jsstring) : jsstring :=
  lit "<b>" ++ header c ++ lit "</b>" ++ nl ++ text.

Definition read_trace (E : env) (key : jsstring) : list event :=
  GetItem DYNAMO_TABLE_NAME key ::
  match get_fault E key with
  | Some msg =>
      [ConsoleError
         [lit "Error getting item with key " ++ key ++ lit " from DynamoDB:"; msg]]
  | None => []
  end.

Lemma row_callback_logs acc cells :
  Forall (fun e => is_log e = true) (console (row_callback acc cells)).
Proof.
  unfold row_callback. destruct (4 <? length cells)%nat; [|constructor].
  destruct (find_zbior cells); [constructor|]. unfold console. simpl.
  rewrite app_nil_r. change (snd ?m) with (console m).
  rewrite addresses_console. constructor.
Qed.

Lemma emergency_row_callback_logs acc cells :
  Forall (fun e => is_log e = true) (console (emergency_row_callback acc cells)).
Proof.
  unfold emergency_row_callback. destruct (5 <=? length cells)%nat; [|constructor].
  destruct (zbior (at_index cells 1)); [by repeat constructor|].
  unfold console. simpl. repeat constructor.
  rewrite app_nil_r. change (snd ?m) with (console m).
  rewrite addresses_console. constructor.
Qed.

Lemma extract_logs E c html :
  Forall (fun e => is_log e = true) (console (extract E c html)).
Proof.
  unfold extract. destruct c; simpl.
  - unfold parseEmergencyOutages.
    destruct (awarie (cheerio_load E html)); [|constructor].
    unfold console. simpl. rewrite app_nil_r.
    apply (forEach_console_logs emergency_row_callback).
    apply emergency_row_callback_logs.
  - apply (forEach_console_logs district_callback). intros s d.
    unfold district_callback.
    destruct (startsWith (trim (h3 d)) DISTRICT_NAME); [|constructor].
    unfold console. simpl. rewrite app_nil_r.
    apply (forEach_console_logs row_callback), row_callback_logs.
Qed.

Lemma run_fetch_rejected E c t msg :
  http_get E (url c) = rejected msg →
  processOutages E c t
  = (tt, t,
     [ConsoleLog (lit "Processing: " ++ header c);
      HttpGet (url c);
      ConsoleError [lit "Error fetching HTML from " ++ url c ++ lit ":"; msg];
      ConsoleError [lit "Failed to fetch HTML for " ++ header c]]).
Proof. intros H. unfold_io. by rewrite H. Qed.

Lemma run_fetch_empty E c t :
  http_get E (url c) = resolved [] →
  processOutages E c t
  = (tt, t,
     [ConsoleLog (lit "Processing: " ++ header c);
      HttpGet (url c);
      ConsoleError [lit "Failed to fetch HTML for " ++ header c]]).
Proof. intros H. unfold_io. by rewrite H. Qed.

Lemma run_no_data E c t html :
  http_get E (url c) = resolved html → html ≠ [] →
  value (extract E c html) = [] →
  processOutages E c t
  = (tt, t,
     ConsoleLog (lit "Processing: " ++ header c) :: HttpGet (url c)
     :: console (extract E c html)
     ++ [ConsoleLog (lit "No outages found for " ++ dquote ++ header c
                     ++ dquote ++ lit " in the specified district.")]).
Proof.
  intros H Hne Hv. unfold_io. rewrite H. simpl.
  rewrite (proj2 (falsy_false html) Hne). fold (extract E c html).
  unfold value in Hv. rewrite Hv. simpl. reflexivity.
Qed.

Lemma run_unchanged E c t html :
  http_get E (url c) = resolved html → html ≠ [] →
  value (extract E c html) ≠ [] →
  previous E t (dbKey c) = Some (value (extract E c html)) →
  processOutages E c t
  = (tt, t,
     ConsoleLog (lit "Processing: " ++ header c) :: HttpGet (url c)
     :: console (extract E c html)
     ++ [GetItem DYNAMO_TABLE_NAME (dbKey c);
         ConsoleLog (lit "No changes detected for " ++ header c ++ lit ".")]).
Proof.
  intros H Hne Hv Hp. unfold_io. rewrite H. simpl.
  rewrite (proj2 (falsy_false html) Hne). fold (extract E c html).
  apply falsy_false in Hv. unfold value in *. rewrite Hv.
  unfold previous, stored in Hp.
  destruct (get_fault E (dbKey c)); [done|]. simpl.
  injection Hp as Hp. rewrite Hp. simpl. rewrite str_eqb_refl. reflexivity.
Qed.

Lemma run_changed E c t html :
  http_get E (url c) = resolved html → html ≠ [] →
  value (extract E c html) ≠ [] →
  strict_eq (value (extract E c html)) (previous E t (dbKey c)) = false →
  processOutages E c t
  = (tt,
     table_after (saveNewOutages E (dbKey c) (value (extract E c html)) t),
     ConsoleLog (lit "Processing: " ++ header c) :: HttpGet (url c)
     :: console (extract E c html)
     ++ read_trace E (dbKey c)
     ++ ConsoleLog (lit "New data detected for " ++ header c
                    ++ lit ". Notifying and updating state.")
     :: trace (sendTelegramMessage E (message c (value (extract E c html))) t)
     ++ trace (saveNewOutages E (dbKey c) (value (extract E c html)) t)).
Proof.
  intros H Hne Hv Hp. unfold_io. rewrite H. simpl.
  rewrite (proj2 (falsy_false html) Hne). fold (extract E c html).
  apply falsy_false in Hv. unfold value in *. rewrite Hv.
  unfold previous, stored, read_trace, message in *.
  destruct (get_fault E (dbKey c)); simpl in *; rewrite ?Hp;
    destruct (unset (TELEGRAM_BOT_TOKEN E) || unset (TELEGRAM_CHAT_ID E));
    simpl; repeat match goal with
    | |- context [http_post ?E ?u ?c ?m] => destruct (http_post E u c m)
    | |- context [put_fault ?E ?k] => destruct (put_fault E k)
    end; simpl; rewrite <-?app_assoc; reflexivity.
Qed.

(** [sendTelegramMessage] leaves the table alone and sends at most one
    request. *)
Lemma send_table E m t : table_after (sendTelegramMessage E m t) = t.
Proof.
  unfold_io.
  destruct (unset (TELEGRAM_BOT_TOKEN E) || unset (TELEGRAM_CHAT_ID E));
    [done|].
  simpl. by destruct (http_post E _ _ m).
Qed.

Lemma send_no_store E m t :
  puts (trace (sendTelegramMessage E m t)) = []
  ∧ gets (trace (sendTelegramMessage E m t)) = [].
Proof.
  unfold_io.
  destruct (unset (TELEGRAM_BOT_TOKEN E) || unset (TELEGRAM_CHAT_ID E));
    [done|].
  simpl. by destruct (http_post E _ _ m).
Qed.

Lemma send_configured E m t :
  unset (TELEGRAM_BOT_TOKEN E) = false → unset (TELEGRAM_CHAT_ID E) = false →
  posts (trace (sendTelegramMessage E m t)) = [telegram_post E m].
Proof.
  intros Ht Hc. unfold_io. rewrite Ht, Hc. simpl.
  by destruct (http_post E _ _ m).
Qed.

Lemma send_rejected E m t msg :
  unset (TELEGRAM_BOT_TOKEN E) = false → unset (TELEGRAM_CHAT_ID E) = false →
  http_post E (lit "https://api.telegram.org/bot"
               ++ env_string (TELEGRAM_BOT_TOKEN E) ++ lit "/sendMessage")
    (env_string (TELEGRAM_CHAT_ID E)) m = rejected msg →
  sendTelegramMessage E m t
  = (tt, t, [telegram_post E m;
             ConsoleError [lit "Error sending message to Telegram:"; msg]]).
Proof. intros Ht Hc Hp. unfold_io. rewrite Ht, Hc. simpl. by rewrite Hp. Qed.

Lemma save_served E key text t :
  put_fault E key = None →
  saveNewOutages E key text t
  = (tt, <[key := Item text (now E key)]> t,
     [PutItem DYNAMO_TABLE_NAME key (Item text (now E key));
      ConsoleLog (lit "Successfully saved new data with key " ++ key
                  ++ lit " to DynamoDB.")]).
Proof. intros H. unfold_io. by rewrite H. Qed.

Lemma save_rejected E key text t msg :
  put_fault E key = Some msg →
  saveNewOutages E key text t
  = (tt, t,
     [PutItem DYNAMO_TABLE_NAME key (Item text (now E key));
      ConsoleError [lit "Error saving item with key " ++ key
                    ++ lit " to DynamoDB:"; msg]]).
Proof. intros H. unfold_io. by rewrite H. Qed.

Lemma save_trace E key text t :
  posts (trace (saveNewOutages E key text t)) = []
  ∧ gets (trace (saveNewOutages E key text t)) = []
  ∧ puts (trace (saveNewOutages E key text t))
    = [PutItem DYNAMO_TABLE_NAME key (Item text (now E key))].
Proof.
  destruct (put_fault E key) as [msg|] eqn:H.
  - by rewrite (save_rejected _ _ _ _ msg H).
  - by rewrite (save_served _ _ _ _ H).
Qed.

Lemma read_trace_obs E key :
  posts (read_trace E key) = [] ∧ puts (read_trace E key) = []
  ∧ gets (read_trace E key) = [GetItem DYNAMO_TABLE_NAME key].
Proof. unfold read_trace. by destruct (get_fault E key). Qed.

(** The handler runs the two categories one after the other, whatever
    happens in them, and answers 200. *)
Lemma handler_runs_both E t :
  handler E t
  = (Response 200 (lit "Check complete.") None,
     table_after (processOutages E PLANNED
                    (table_after (processOutages E EMERGENCY t))),
     ConsoleLog (lit "Starting water outage check...")
     :: trace (processOutages E EMERGENCY t)
     ++ trace (processOutages E PLANNED
                 (table_after (processOutages E EMERGENCY t)))
     ++ [ConsoleLog (lit "Water outage check finished.")]).
Proof.
  unfold handler, mbind, io_bind, mret, io_ret, sync, console_log.
  destruct (processOutages E EMERGENCY t) as [[[] t1] tr1].
  unfold table_after, trace. simpl.
  by destruct (processOutages E PLANNED t1) as [[[] t2] tr2].
Qed.

End Part000Run.

(** ** Runs of the single-category variant *)

Module IndexRun.
Import Index IndexParse.

Ltac index_unfold_io :=
  unfold handler, fetchHtmlContent, getPreviousOutages,
    saveNewOutages, sendTelegramMessage, axios_get, axios_post,
    send_GetItem, send_PutItem, sync, console_log, console_error,
    mbind, io_bind, mret, io_ret.

Definition index_read_trace (E : env) : list event :=
  GetItem DYNAMO_TABLE_NAME DYNAMO_PRIMARY_KEY ::
  match get_fault E DYNAMO_PRIMARY_KEY with
  | Some msg => [ConsoleError [lit "Error getting item from DynamoDB:"; msg]]
  | None => []
  end.

Lemma index_row_callback_logs acc cells :
  Forall (fun e => is_log e = true) (console (row_callback acc cells)).
Proof.
  unfold row_callback. destruct (4 <? length cells)%nat; [|constructor].
  destruct (find_zbior cells); [constructor|]. unfold console. simpl.
  rewrite app_nil_r. apply index_addresses_console.
Qed.

Lemma parseOutages_logs E html :
  Forall (fun e => is_log e = true) (console (parseOutages E html)).
Proof.
  apply (forEach_console_logs district_callback). intros s d.
  unfold district_callback.
  destruct (startsWith (trim (h3 d)) DISTRICT_NAME); [|constructor].
  unfold console. simpl. rewrite app_nil_r.
  apply (forEach_console_logs row_callback), index_row_callback_logs.
Qed.

Lemma index_run_fetch_rejected E t msg :
  http_get E URL = rejected msg →
  handler E t
  = (Response 500 (lit "Failed to fetch HTML content.") None, t,
     [ConsoleLog (lit "Fetching latest water outage data...");
      HttpGet URL;
      ConsoleError [lit "Error fetching HTML:"; msg]]).
Proof. intros H. index_unfold_io. by rewrite H. Qed.

Lemma index_run_fetch_empty E t :
  http_get E URL = resolved [] →
  handler E t
  = (Response 500 (lit "Failed to fetch HTML content.") None, t,
     [ConsoleLog (lit "Fetching latest water outage data...");
      HttpGet URL]).
Proof. intros H. index_unfold_io. by rewrite H. Qed.

Lemma index_run_no_data E t html :
  http_get E URL = resolved html → html ≠ [] →
  value (parseOutages E html) = [] →
  handler E t
  = (Response 200 (lit "No outages found.") None, t,
     ConsoleLog (lit "Fetching latest water outage data...") :: HttpGet URL
     :: ConsoleLog (lit "Parsing HTML and extracting outage information...")
     :: console (parseOutages E html)
     ++ [ConsoleLog (lit "No outages found for the specified district.")]).
Proof.
  intros H Hne Hv. index_unfold_io. rewrite H. simpl.
  rewrite (proj2 (falsy_false html) Hne).
  unfold value in Hv. rewrite Hv. simpl. reflexivity.
Qed.

Lemma index_run_unchanged E t html :
  http_get E URL = resolved html → html ≠ [] →
  value (parseOutages E html) ≠ [] →
  previous E t DYNAMO_PRIMARY_KEY = Some (value (parseOutages E html)) →
  handler E t
  = (Response 200 (lit "No new water outages.") None, t,
     ConsoleLog (lit "Fetching latest water outage data...") :: HttpGet URL
     :: ConsoleLog (lit "Parsing HTML and extracting outage information...")
     :: console (parseOutages E html)
     ++ [ConsoleLog (lit "Fetching previous outage data from DynamoDB...");
         GetItem DYNAMO_TABLE_NAME DYNAMO_PRIMARY_KEY;
         ConsoleLog (lit "No changes detected. Exiting.")]).
Proof.
  intros H Hne Hv Hp. index_unfold_io. rewrite H. simpl.
  rewrite (proj2 (falsy_false html) Hne).
  apply falsy_false in Hv. unfold value in *. rewrite Hv.
  unfold previous, stored in Hp.
  destruct (get_fault E DYNAMO_PRIMARY_KEY); [done|]. simpl.
  injection Hp as Hp. rewrite Hp. simpl. rewrite str_eqb_refl. reflexivity.
Qed.

Lemma index_run_changed E t html :
  http_get E URL = resolved html → html ≠ [] →
  value (parseOutages E html) ≠ [] →
  strict_eq (value (parseOutages E html)) (previous E t DYNAMO_PRIMARY_KEY)
  = false →
  handler E t
  = (Response 200 (lit "New water outage data found, notified, and saved.")
       (Some (value (parseOutages E html))),
     table_after (saveNewOutages E (value (parseOutages E html)) t),
     ConsoleLog (lit "Fetching latest water outage data...") :: HttpGet URL
     :: ConsoleLog (lit "Parsing HTML and extracting outage information...")
     :: console (parseOutages E html)
     ++ ConsoleLog (lit "Fetching previous outage data from DynamoDB...")
     :: index_read_trace E
     ++ ConsoleLog
          (lit "New outage data detected. Sending notification and updating DynamoDB.")
     :: trace (sendTelegramMessage E (value (parseOutages E html)) t)
     ++ trace (saveNewOutages E (value (parseOutages E html)) t)).
Proof.
  intros H Hne Hv Hp. index_unfold_io. rewrite H. simpl.
  rewrite (proj2 (falsy_false html) Hne).
  apply falsy_false in Hv. unfold value in *. rewrite Hv.
  unfold previous, stored, index_read_trace in *.
  destruct (get_fault E DYNAMO_PRIMARY_KEY); simpl in *; rewrite ?Hp;
    destruct (unset (TELEGRAM_BOT_TOKEN E) || unset (TELEGRAM_CHAT_ID E));
    simpl; repeat match goal with
    | |- context [http_post ?E ?u ?c ?m] => destruct (http_post E u c m)
    | |- context [put_fault ?E ?k] => destruct (put_fault E k)
    end; simpl; rewrite <-?app_assoc; reflexivity.
Qed.

Lemma index_send_table E m t : table_after (sendTelegramMessage E m t) = t.
Proof.
  index_unfold_io.
  destruct (unset (TELEGRAM_BOT_TOKEN E) || unset (TELEGRAM_CHAT_ID E));
    [done|].
  simpl. by destruct (http_post E _ _ m).
Qed.

Lemma index_send_no_store E m t :
  puts (trace (sendTelegramMessage E m t)) = []
  ∧ gets (trace (sendTelegramMessage E m t)) = [].
Proof.
  index_unfold_io.
  destruct (unset (TELEGRAM_BOT_TOKEN E) || unset (TELEGRAM_CHAT_ID E));
    [done|].
  simpl. by destruct (http_post E _ _ m).
Qed.

Lemma index_send_configured E m t :
  unset (TELEGRAM_BOT_TOKEN E) = false → unset (TELEGRAM_CHAT_ID E) = false →
  posts (trace (sendTelegramMessage E m t)) = [telegram_post E m].
Proof.
  intros Ht Hc. index_unfold_io. rewrite Ht, Hc. simpl.
  by destruct (http_post E _ _ m).
Qed.

Lemma index_save_served E text t :
  put_fault E DYNAMO_PRIMARY_KEY = None →
  saveNewOutages E text t
  = (tt, <[DYNAMO_PRIMARY_KEY := Item text (now E DYNAMO_PRIMARY_KEY)]> t,
     [PutItem DYNAMO_TABLE_NAME DYNAMO_PRIMARY_KEY
        (Item text (now E DYNAMO_PRIMARY_KEY));
      ConsoleLog (lit "Successfully saved new outage data to DynamoDB.")]).
Proof. intros H. index_unfold_io. by rewrite H. Qed.

Lemma index_save_rejected E text t msg :
  put_fault E DYNAMO_PRIMARY_KEY = Some msg →
  saveNewOutages E text t
  = (tt, t,
     [PutItem DYNAMO_TABLE_NAME DYNAMO_PRIMARY_KEY
        (Item text (now E DYNAMO_PRIMARY_KEY));
      ConsoleError [lit "Error saving item to DynamoDB:"; msg]]).
Proof. intros H. index_unfold_io. by rewrite H. Qed.

Lemma index_save_trace E text t :
  posts (trace (saveNewOutages E text t)) = []
  ∧ gets (trace (saveNewOutages E text t)) = []
  ∧ puts (trace (saveNewOutages E text t))
    = [PutItem DYNAMO_TABLE_NAME DYNAMO_PRIMARY_KEY
         (Item text (now E DYNAMO_PRIMARY_KEY))].
Proof.
  destruct (put_fault E DYNAMO_PRIMARY_KEY) as [msg|] eqn:H.
  - by rewrite (index_save_rejected _ _ _ msg H).
  - by rewrite (index_save_served _ _ _ H).
Qed.

Lemma index_read_trace_obs E :
  posts (index_read_trace E) = [] ∧ puts (index_read_trace E) = []
  ∧ gets (index_read_trace E) = [GetItem DYNAMO_TABLE_NAME DYNAMO_PRIMARY_KEY].
Proof. unfold index_read_trace. by destruct (get_fault E DYNAMO_PRIMARY_KEY). Qed.

End IndexRun.

(** ** What a run shows *)

Module Part000Obs.
Import Part000 Part000Parse Part000Run.

Lemma extract_same_page E E' c html :
  cheerio_load E html = cheerio_load E' html →
  extract E c html = extract E' c html.
Proof.
  intros H. unfold extract, parseEmergencyOutages, parseOutages.
  by rewrite H.
Qed.

Lemma differs_strict E t key text :
  stored t key ≠ text → strict_eq text (previous E t key) = false.
Proof.
  intros H. unfold previous. destruct (get_fault E key); [done|].
  simpl. apply str_eqb_neq. congruence.
Qed.

Ltac split_trace :=
  unfold quiet, posts, puts, gets, errors in *; simpl;
  repeat (rewrite ?List.filter_app; simpl).

Lemma no_data_obs E c t html :
  http_get E (url c) = resolved html → html ≠ [] →
  value (extract E c html) = [] →
  In (no_outages_line c) (trace (processOutages E c t))
  ∧ errors (trace (processOutages E c t)) = []
  ∧ quiet (trace (processOutages E c t))
  ∧ gets (trace (processOutages E c t)) = []
  ∧ table_after (processOutages E c t) = t.
Proof.
  intros H Hne Hv. rewrite (run_no_data E c t html H Hne Hv).
  destruct (logs_silent _ (extract_logs E c html)) as (Hp & Hu & Hg & He).
  unfold trace, table_after. split_trace. rewrite Hp, Hu, Hg, He.
  repeat split.
  right. right. apply in_or_app. right. by left.
Qed.

Lemma unchanged_obs E c t html :
  http_get E (url c) = resolved html → html ≠ [] →
  value (extract E c html) ≠ [] →
  previous E t (dbKey c) = Some (value (extract E c html)) →
  In (no_changes_line c) (trace (processOutages E c t))
  ∧ errors (trace (processOutages E c t)) = []
  ∧ quiet (trace (processOutages E c t))
  ∧ table_after (processOutages E c t) = t.
Proof.
  intros H Hne Hv Hp. rewrite (run_unchanged E c t html H Hne Hv Hp).
  destruct (logs_silent _ (extract_logs E c html)) as (Hp' & Hu & Hg & He).
  unfold trace, table_after. split_trace. rewrite Hp', Hu, He.
  repeat split.
  right. right. apply in_or_app. right. right. by left.
Qed.

Lemma changed_obs E c t html :
  http_get E (url c) = resolved html → html ≠ [] →
  value (extract E c html) ≠ [] →
  strict_eq (value (extract E c html)) (previous E t (dbKey c)) = false →
  In (new_data_line c) (trace (processOutages E c t))
  ∧ posts (trace (processOutages E c t))
    = posts (trace (sendTelegramMessage E (message c (value (extract E c html))) t))
  ∧ puts (trace (processOutages E c t))
    = [PutItem DYNAMO_TABLE_NAME (dbKey c)
         (Item (value (extract E c html)) (now E (dbKey c)))]
  ∧ gets (trace (processOutages E c t)) = [GetItem DYNAMO_TABLE_NAME (dbKey c)]
  ∧ table_after (processOutages E c t)
    = table_after (saveNewOutages E (dbKey c) (value (extract E c html)) t).
Proof.
  intros H Hne Hv Hp. rewrite (run_changed E c t html H Hne Hv Hp).
  destruct (logs_silent _ (extract_logs E c html)) as (Hp' & Hu & Hg & He).
  destruct (read_trace_obs E (dbKey c)) as (Rp & Ru & Rg).
  destruct (send_no_store E (message c (value (extract E c html))) t)
    as (Su & Sg).
  destruct (save_trace E (dbKey c) (value (extract E c html)) t)
    as (Vp & Vg & Vu).
  remember (read_trace E (dbKey c)) as R eqn:HR. clear HR.
  remember (trace (sendTelegramMessage E _ t)) as S eqn:HS. clear HS.
  remember (trace (saveNewOutages E _ _ t)) as V eqn:HV. clear HV.
  unfold trace, table_after at 1. split_trace.
  rewrite Hp', Hu, Hg, Rp, Ru, Rg, Su, Sg, Vp, Vg, Vu, app_nil_r.
  repeat split.
  right. right. apply in_or_app. right. apply in_or_app. right. by left.
Qed.

End Part000Obs.

Module IndexObs.
Import Index IndexParse IndexRun.

Ltac index_split_trace :=
  unfold quiet, posts, puts, gets, errors in *; simpl;
  repeat (rewrite ?List.filter_app; simpl).

Lemma index_parse_same_page E E' html :
  cheerio_load E html = cheerio_load E' html →
  parseOutages E html = parseOutages E' html.
Proof. intros H. unfold parseOutages. by rewrite H. Qed.

Lemma index_no_data_obs E t html :
  http_get E URL = resolved html → html ≠ [] →
  value (parseOutages E html) = [] →
  returned (handler E t) = Response 200 (lit "No outages found.") None
  ∧ errors (trace (handler E t)) = []
  ∧ quiet (trace (handler E t))
  ∧ gets (trace (handler E t)) = []
  ∧ table_after (handler E t) = t.
Proof.
  intros H Hne Hv. rewrite (index_run_no_data E t html H Hne Hv).
  destruct (logs_silent _ (parseOutages_logs E html)) as (Hp & Hu & Hg & He).
  unfold trace, table_after, returned. index_split_trace.
  by rewrite Hp, Hu, Hg, He.
Qed.

Lemma index_unchanged_obs E t html :
  http_get E URL = resolved html → html ≠ [] →
  value (parseOutages E html) ≠ [] →
  previous E t DYNAMO_PRIMARY_KEY = Some (value (parseOutages E html)) →
  returned (handler E t) = Response 200 (lit "No new water outages.") None
  ∧ errors (trace (handler E t)) = []
  ∧ quiet (trace (handler E t))
  ∧ table_after (handler E t) = t.
Proof.
  intros H Hne Hv Hp. rewrite (index_run_unchanged E t html H Hne Hv Hp).
  destruct (logs_silent _ (parseOutages_logs E html)) as (Hp' & Hu & Hg & He).
  unfold trace, table_after, returned. index_split_trace.
  by rewrite Hp', Hu, He.
Qed.

Lemma index_changed_obs E t html :
  http_get E URL = resolved html → html ≠ [] →
  value (parseOutages E html) ≠ [] →
  strict_eq (value (parseOutages E html)) (previous E t DYNAMO_PRIMARY_KEY)
  = false →
  returned (handler E t)
  = Response 200 (lit "New water outage data found, notified, and saved.")
      (Some (value (parseOutages E html)))
  ∧ posts (trace (handler E t))
    = posts (trace (sendTelegramMessage E (value (parseOutages E html)) t))
  ∧ puts (trace (handler E t))
    = [PutItem DYNAMO_TABLE_NAME DYNAMO_PRIMARY_KEY
         (Item (value (parseOutages E html)) (now E DYNAMO_PRIMARY_KEY))]
  ∧ gets (trace (handler E t)) = [GetItem DYNAMO_TABLE_NAME DYNAMO_PRIMARY_KEY]
  ∧ table_after (handler E t)
    = table_after (saveNewOutages E (value (parseOutages E html)) t).
Proof.
  intros H Hne Hv Hp. rewrite (index_run_changed E t html H Hne Hv Hp).
  destruct (logs_silent _ (parseOutages_logs E html)) as (Hp' & Hu & Hg & He).
  destruct (index_read_trace_obs E) as (Rp & Ru & Rg).
  destruct (index_send_no_store E (value (parseOutages E html)) t)
    as (Su & Sg).
  destruct (index_save_trace E (value (parseOutages E html)) t)
    as (Vp & Vg & Vu).
  remember (index_read_trace E) as R eqn:HR. clear HR.
  remember (trace (sendTelegramMessage E _ t)) as S eqn:HS. clear HS.
  remember (trace (saveNewOutages E _ t)) as V eqn:HV. clear HV.
  unfold trace, table_after at 1, returned. index_split_trace.
  by rewrite Hp', Hu, Hg, Rp, Ru, Rg, Su, Sg, Vp, Vg, Vu, app_nil_r.
Qed.

End IndexObs.

(** * The claims *)

Section claims.
Import Part000Parse Part000Districts Part000Run Part000Obs.
Import IndexParse IndexRun IndexObs.

(** C7. A row of the document becomes an entry of the report only if it has
    enough cells: more than 4 in the planned parser, at least 5 in the
    emergency parser.  A row with fewer cells contributes nothing, and the
    rows around it are rendered as if it were not there: the array of
    entries is a fixed rendering mapped over the rows that pass the test,
    in document order, and the report is the sorted array joined. *)
Theorem row_inclusion_rule :
  ∃ render_planned render_emergency : row → jsstring,
    (∀ acc rows,
       value (forEach Part000.row_callback acc rows)
       = acc ++ map render_planned
                  (List.filter (fun cells : row => (4 <? length cells)%nat) rows))
    ∧ (∀ acc rows,
       value (forEach Part000.emergency_row_callback acc rows)
       = acc ++ map render_emergency
                  (List.filter (fun cells : row => (5 <=? length cells)%nat) rows))
    ∧ (∀ output d,
       startsWith (trim (h3 d)) Part000.DISTRICT_NAME = true →
       value (Part000.district_callback output d)
       = join nl (sort (map render_planned
           (List.filter (fun cells : row => (4 <? length cells)%nat) (awarie_rows d)))))
    ∧ (∀ E html rows,
       awarie (cheerio_load E html) = Some rows →
       value (Part000.parseEmergencyOutages E html)
       = join nl (sort (map render_emergency
           (List.filter (fun cells : row => (5 <=? length cells)%nat) rows))))
    ∧ (∀ cells : row, (4 < length cells)%nat →
       render_planned cells ≠ [] ∧ render_emergency cells ≠ []).
Proof.
  exists (fun cells => hd [] (planned_record cells)),
         (fun cells => hd [] (emergency_record cells)).
  assert (P : ∀ rows, flat_map planned_record rows
    = map (fun cells => hd [] (planned_record cells))
        (List.filter (fun cells : row => (4 <? length cells)%nat) rows)).
  { intros rows.
    rewrite (flat_map_filter _ (fun cells : row => (4 <? length cells)%nat)).
    - apply flat_map_singletons, List.Forall_forall.
      intros cells [_ Hc%Nat.ltb_lt]%filter_In.
      by destruct (planned_record_long cells Hc) as (e & -> & _).
    - intros cells Hc%Nat.ltb_ge. by apply planned_record_short. }
  assert (Q : ∀ rows, flat_map emergency_record rows
    = map (fun cells => hd [] (emergency_record cells))
        (List.filter (fun cells : row => (5 <=? length cells)%nat) rows)).
  { intros rows.
    rewrite (flat_map_filter _ (fun cells : row => (5 <=? length cells)%nat)).
    - apply flat_map_singletons, List.Forall_forall.
      intros cells [_ Hc%Nat.leb_le]%filter_In.
      by destruct (emergency_record_long cells Hc) as (e & -> & _).
    - intros cells Hc%Nat.leb_gt. by apply emergency_record_short. }
  split; [|split; [|split; [|split]]].
  - intros acc rows. by rewrite planned_outages, P.
  - intros acc rows. by rewrite emergency_outages, Q.
  - intros output d Hd. by rewrite district_callback_value, Hd, P.
  - intros E html rows Hr. by rewrite parseEmergencyOutages_value, Hr, Q.
  - intros cells Hc.
    destruct (planned_record_long cells Hc) as (e & -> & He).
    destruct (emergency_record_long cells Hc) as (e' & -> & He').
    by split.
Qed.

Lemma row_inclusion_rule_witness :
  value (Part000.district_callback []
           (Sample.ursus [Sample.row1; Sample.short_row; Sample.row2]))
  = value (Part000.district_callback []
             (Sample.ursus [Sample.row1; Sample.row2]))
  ∧ value (Part000.parseEmergencyOutages Sample.calm (lit "<html>"))
    = value (Part000.parseEmergencyOutages
               (Sample.outside
                  (Sample.page_of [] (Some [Sample.erow1; Sample.erow2]))
                  None None (resolved tt))
               (lit "<html>")).
Proof.
  destruct row_inclusion_rule as (rp & re & _ & _ & D & T & _).
  split.
  - rewrite !D; [reflexivity | by vm_compute | by vm_compute].
  - by rewrite (T Sample.calm _ [Sample.erow1; Sample.short_row; Sample.erow2]),
      (T _ _ [Sample.erow1; Sample.erow2]).
Defined.

(** A decoration row between two rows of the sample leaves the reports as
    they are without it. *)
Example short_row_skipped :
  value (forEach Part000.row_callback []
           [Sample.row1; Sample.short_row; Sample.row2])
  = value (forEach Part000.row_callback [] [Sample.row1; Sample.row2])
  ∧ value (forEach Part000.emergency_row_callback []
             [Sample.erow1; Sample.short_row; Sample.erow2])
    = value (forEach Part000.emergency_row_callback []
               [Sample.erow1; Sample.erow2]).
Proof. by vm_compute. Qed.

(** Replacing the text of the status cell, the fifth, of a row. *)
Lemma planned_ignores_status cells status :
  planned_record
    (alter (fun c => Cell (first_text c) status (zbior c)) 4%nat cells)
  = planned_record cells.
Proof.
  destruct cells as [|c0 [|c1 [|c2 [|c3 [|c4 rest]]]]]; try reflexivity.
Qed.

(** C8. An emergency row of at least five cells is rendered as the bold
    address, the time range, the status and its address lines.  With an
    expected resolution [Y] the time range reads "(od X do Y)"; without one
    it reads "(od X, czas usunięcia nieznany)".  The status "w toku" is
    shown as "w trakcie", every other status as it is.  The planned parser
    maps no status: its entry for a row is the same whatever the text of the
    status cell. *)
Theorem emergency_rendering (cells : row) :
  (5 ≤ length cells)%nat →
  let address := trim (first_text (at_index cells 0)) in
  let X := trim (text (at_index cells 2)) in
  let Y := trim (text (at_index cells 3)) in
  let status := trim (text (at_index cells 4)) in
  (∃ timeInfo statusText lines,
     emergency_record cells
     = [lit "<strong>" ++ address ++ lit "</strong> " ++ timeInfo
        ++ lit " - " ++ statusText ++ nl ++ lines]
     ∧ (Y ≠ [] → timeInfo = lit "(od " ++ X ++ lit " do " ++ Y ++ lit ")")
     ∧ (Y = [] → timeInfo = lit "(od " ++ X ++ lit ", czas usunięcia nieznany)")
     ∧ (status = lit "w toku" → statusText = lit "w trakcie")
     ∧ (status ≠ lit "w toku" → statusText = status))
  ∧ (∀ other,
       planned_record
         (alter (fun c => Cell (first_text c) other (zbior c)) 4%nat cells)
       = planned_record cells).
Proof.
  intros Hlen address X Y status. split; [|apply planned_ignores_status].
  unfold emergency_record, Part000.emergency_row_callback.
  destruct (Nat.leb_spec 5 (length cells)); [|lia].
  fold address X Y status.
  exists (if falsy Y
          then lit "(od " ++ X ++ lit ", czas usunięcia nieznany)"
          else lit "(od " ++ X ++ lit " do " ++ Y ++ lit ")"),
         (if str_eqb status (lit "w toku") then lit "w trakcie" else status),
         (match zbior (at_index cells 1) with
          | [] => []
          | html :: _ => address_lines (addresses_of html)
          end).
  repeat split.
  - destruct (zbior (at_index cells 1)) as [|html ?]; simpl.
    + destruct (falsy Y); rewrite <-?app_assoc, ?app_nil_r; reflexivity.
    + change (fst ?m) with (value m). rewrite addresses_value.
      destruct (falsy Y); rewrite <-?app_assoc; reflexivity.
  - intros HY. by rewrite (proj2 (falsy_false Y) HY).
  - intros HY. by rewrite (proj2 (falsy_nil Y) HY).
  - intros Hs. by rewrite (proj2 (str_eqb_eq _ _) Hs).
  - intros Hs. by rewrite (str_eqb_neq _ _ Hs).
Qed.

Lemma emergency_rendering_witness :
  ∃ timeInfo statusText lines,
    emergency_record Sample.erow2
    = [lit "<strong>" ++ lit "Dzieci Warszawy 1" ++ lit "</strong> "
       ++ timeInfo ++ lit " - " ++ statusText ++ nl ++ lines]
    ∧ timeInfo = lit "(od 2025-07-21 11:00, czas usunięcia nieznany)"
    ∧ statusText = lit "zgłoszona".
Proof.
  destruct (emergency_rendering Sample.erow2) as [(ti & st & ls & H) _].
  - vm_compute. lia.
  - exists ti, st, ls. destruct H as (H & _ & HY & _ & Hs).
    split; [exact H|]. split.
    + rewrite HY; by vm_compute.
    + rewrite Hs; by vm_compute.
Defined.

(** The two sample rows, rendered. *)
Example emergency_rendering_samples :
  emergency_record Sample.erow1
  = [lit "<strong>Keniga 5</strong> (od 2025-07-21 10:15 do 2025-07-21 18:00) - w trakcie"
     ++ nl ++ lit "- Keniga 3" ++ nl ++ lit "- Keniga 7" ++ nl]
  ∧ emergency_record Sample.erow2
    = [lit "<strong>Dzieci Warszawy 1</strong> (od 2025-07-21 11:00, czas usunięcia nieznany) - zgłoszona"
       ++ nl].
Proof. by vm_compute. Qed.

(** C2. The report of the single-category variant follows the order of the
    rows in the document: [src/index.js] joins the entries as they come and
    never sorts them, so the same two rows in the two orders give two
    different reports.  The two-category variant sorts the entries and gives
    one report for both orders (in general: [parseOutages_row_order],
    [parseEmergencyOutages_row_order]). *)
Theorem index_report_follows_row_order :
  [Sample.row1; Sample.row2] ≡ₚ [Sample.row2; Sample.row1]
  ∧ value (Index.parseOutages Sample.rows_12 (lit "<html>"))
    ≠ value (Index.parseOutages Sample.rows_21 (lit "<html>"))
  ∧ (let r1 := Index.handler Sample.rows_12 ∅ in
     let r2 := Index.handler Sample.rows_21 (table_after r1) in
     returned r2
     = Response 200 (lit "New water outage data found, notified, and saved.")
         (Some (value (Index.parseOutages Sample.rows_21 (lit "<html>"))))
     ∧ length (posts (trace r2)) = 1%nat)
  ∧ value (Part000.parseOutages Sample.rows_12 (lit "<html>"))
    = value (Part000.parseOutages Sample.rows_21 (lit "<html>")).
Proof.
  split; [apply perm_swap|]. split; [vm_compute; discriminate|].
  split; by vm_compute.
Qed.

(** The report of the two-category variant for the two sample rows, in
    either order: the entries sorted, the sub-addresses sorted in each. *)
Example part000_report_of_two_rows :
  value (Part000.parseOutages Sample.rows_21 (lit "<html>"))
  = lit "<strong>Cierlicka</strong> (od 2025-07-22 09:00 do 2025-07-22 12:00)"
    ++ nl ++ lit "- C" ++ nl ++ lit "- D" ++ nl ++ nl
    ++ lit "<strong>Zagłoby</strong> (od 2025-07-21 08:00 do 2025-07-21 16:00)"
    ++ nl ++ lit "- A" ++ nl ++ lit "- B" ++ nl.
Proof. by vm_compute. Qed.

(** The sub-addresses B, A and D, C of the two sample rows come out sorted
    in either variant. *)
Example addresses_come_sorted :
  addresses_of (lit " B <br>A<br>") = [lit "A"; lit "B"]
  ∧ addresses_of (lit "D<br>C") = [lit "C"; lit "D"].
Proof. by vm_compute. Qed.

Lemma short_rows_no_record rows :
  Forall (fun cells : row => (length cells ≤ 4)%nat) rows →
  flat_map planned_record rows = [] ∧ flat_map index_planned_record rows = [].
Proof.
  induction 1 as [|cells rows Hc _ [IH IH']]; [done|]. simpl.
  by rewrite planned_record_short, index_planned_record_short, IH, IH'.
Qed.

Lemma short_rows_no_emergency_record rows :
  Forall (fun cells : row => (length cells < 5)%nat) rows →
  flat_map emergency_record rows = [].
Proof.
  induction 1 as [|cells rows Hc _ IH]; [done|]. simpl.
  by rewrite emergency_record_short, IH.
Qed.

Lemma rowless_districts ds :
  Forall (fun d => Forall (fun cells : row => (length cells ≤ 4)%nat)
                     (awarie_rows d)) ds →
  fold_left (fun output d => value (Part000.district_callback output d)) ds []
  = [].
Proof.
  induction 1 as [|d ds Hd _ IH]; [done|]. simpl.
  rewrite district_callback_value.
  destruct (short_rows_no_record _ Hd) as [-> _].
  by destruct (startsWith (trim (h3 d)) Part000.DISTRICT_NAME).
Qed.

(** X20. When the extraction for a category gives the empty string, the run
    writes its "No outages found" line and stops: nothing is written by
    [console.error], the store is neither read nor written, its content is
    as before, and no notification is sent.  In the single-category variant
    the handler answers 200, "No outages found.".  The extraction of the
    two-category variant is empty when no district carries the name, when
    the districts have no row of enough cells, when the emergency table is
    missing and when it has no row of enough cells; that of the
    single-category variant is empty when no district carries the name. *)
Theorem empty_extraction_is_no_data :
  (∀ E c t html,
     http_get E (Part000.url c) = resolved html → html ≠ [] →
     value (extract E c html) = [] →
     In (Part000.no_outages_line c) (trace (Part000.processOutages E c t))
     ∧ errors (trace (Part000.processOutages E c t)) = []
     ∧ quiet (trace (Part000.processOutages E c t))
     ∧ gets (trace (Part000.processOutages E c t)) = []
     ∧ table_after (Part000.processOutages E c t) = t)
  ∧ (∀ E t html,
     http_get E Index.URL = resolved html → html ≠ [] →
     value (Index.parseOutages E html) = [] →
     returned (Index.handler E t) = Response 200 (lit "No outages found.") None
     ∧ errors (trace (Index.handler E t)) = []
     ∧ quiet (trace (Index.handler E t))
     ∧ gets (trace (Index.handler E t)) = []
     ∧ table_after (Index.handler E t) = t)
  ∧ (∀ E html,
     Forall (fun d => startsWith (trim (h3 d)) Part000.DISTRICT_NAME = false)
       (dzielnica (cheerio_load E html)) →
     value (Part000.parseOutages E html) = []
     ∧ value (Index.parseOutages E html) = [])
  ∧ (∀ E html,
     Forall (fun d => Forall (fun cells : row => (length cells ≤ 4)%nat)
                        (awarie_rows d))
       (dzielnica (cheerio_load E html)) →
     value (Part000.parseOutages E html) = [])
  ∧ (∀ E html,
     match awarie (cheerio_load E html) with
     | Some rows => Forall (fun cells : row => (length cells < 5)%nat) rows
     | None => True
     end →
     value (Part000.parseEmergencyOutages E html) = []).
Proof.
  split; [exact no_data_obs|]. split; [exact index_no_data_obs|].
  split; [|split].
  - intros E html H. split.
    + rewrite parseOutages_value. by apply Part000Districts.other_districts.
    + rewrite index_parseOutages_value. by apply index_other_districts.
  - intros E html H. rewrite parseOutages_value. by apply rowless_districts.
  - intros E html H. rewrite parseEmergencyOutages_value.
    destruct (awarie (cheerio_load E html)) as [rows|]; [|done].
    by rewrite short_rows_no_emergency_record.
Qed.

Lemma empty_extraction_is_no_data_witness :
  (In (Part000.no_outages_line Part000.PLANNED)
      (trace (Part000.processOutages Sample.no_section Part000.PLANNED ∅))
   ∧ table_after (Part000.processOutages Sample.no_section Part000.PLANNED ∅) = ∅)
  ∧ (In (Part000.no_outages_line Part000.EMERGENCY)
      (trace (Part000.processOutages Sample.row_free Part000.EMERGENCY ∅))
   ∧ quiet (trace (Part000.processOutages Sample.row_free Part000.EMERGENCY ∅)))
  ∧ returned (Index.handler Sample.no_section ∅)
    = Response 200 (lit "No outages found.") None.
Proof.
  destruct empty_extraction_is_no_data as (P & I & _).
  split; [|split].
  - destruct (P Sample.no_section Part000.PLANNED ∅ (lit "<html>"))
      as (H1 & _ & _ & _ & H2); [reflexivity | by vm_compute | by vm_compute |].
    by split.
  - destruct (P Sample.row_free Part000.EMERGENCY ∅ (lit "<html>"))
      as (H1 & _ & H2 & _); [reflexivity | by vm_compute | by vm_compute |].
    by split.
  - by destruct (I Sample.no_section ∅ (lit "<html>"))
      as (H1 & _); [reflexivity | by vm_compute | by vm_compute |].
Defined.

Lemma index_heading_only E html pre d post :
  dzielnica (cheerio_load E html) = pre ++ d :: post →
  startsWith (trim (h3 d)) Index.DISTRICT_NAME = true →
  Forall (fun cells : row => (length cells ≤ 4)%nat) (awarie_rows d) →
  Forall (fun d' => startsWith (trim (h3 d')) Index.DISTRICT_NAME = false) post →
  value (Index.parseOutages E html) = Index.heading.
Proof.
  intros Hd Hm Hr Hpost.
  rewrite index_parseOutages_value, Hd, fold_left_app. simpl.
  rewrite (index_other_districts _ post Hpost).
  rewrite index_district_callback_value, Hm.
  by destruct (short_rows_no_record _ Hr) as [_ ->].
Qed.

(** C10. In the single-category variant, when the district of the target
    name (the last of that name in the document) has no row of more than 4
    cells, the extractor returns the heading alone,
    "Wyłączenia planowane:\n\n", which is not the empty string.  The run then
    does not end as "No outages found": it reads the store; when the stored
    text differs from the heading it sends the heading as a notification and
    writes it to the store, and when the stored text is the heading it ends
    as "No new water outages.". *)
Theorem index_row_free_district_is_reported E t html pre d post :
  http_get E Index.URL = resolved html → html ≠ [] →
  dzielnica (cheerio_load E html) = pre ++ d :: post →
  startsWith (trim (h3 d)) Index.DISTRICT_NAME = true →
  Forall (fun cells : row => (length cells ≤ 4)%nat) (awarie_rows d) →
  Forall (fun d' => startsWith (trim (h3 d')) Index.DISTRICT_NAME = false) post →
  value (Index.parseOutages E html) = lit "Wyłączenia planowane:" ++ nl ++ nl
  ∧ value (Index.parseOutages E html) ≠ []
  ∧ gets (trace (Index.handler E t))
    = [GetItem Index.DYNAMO_TABLE_NAME Index.DYNAMO_PRIMARY_KEY]
  ∧ body (returned (Index.handler E t)) ≠ lit "No outages found."
  ∧ (stored t Index.DYNAMO_PRIMARY_KEY ≠ Index.heading →
     returned (Index.handler E t)
     = Response 200 (lit "New water outage data found, notified, and saved.")
         (Some Index.heading)
     ∧ posts (trace (Index.handler E t))
       = posts (trace (Index.sendTelegramMessage E Index.heading t))
     ∧ puts (trace (Index.handler E t))
       = [PutItem Index.DYNAMO_TABLE_NAME Index.DYNAMO_PRIMARY_KEY
            (Item Index.heading (now E Index.DYNAMO_PRIMARY_KEY))])
  ∧ (previous E t Index.DYNAMO_PRIMARY_KEY = Some Index.heading →
     returned (Index.handler E t)
     = Response 200 (lit "No new water outages.") None
     ∧ quiet (trace (Index.handler E t))).
Proof.
  intros Hf Hne Hd Hm Hr Hpost.
  pose proof (index_heading_only E html pre d post Hd Hm Hr Hpost) as Hv.
  assert (Hv' : value (Index.parseOutages E html) ≠ []).
  { rewrite Hv. apply heading_nonempty. }
  split; [exact Hv|]. split; [exact Hv'|].
  destruct (strict_eq (value (Index.parseOutages E html))
              (previous E t Index.DYNAMO_PRIMARY_KEY)) eqn:Heq.
  - assert (Hp : previous E t Index.DYNAMO_PRIMARY_KEY
                 = Some (value (Index.parseOutages E html))).
    { destruct (previous E t Index.DYNAMO_PRIMARY_KEY) as [p|]; [|done].
      simpl in Heq. apply str_eqb_eq in Heq. by rewrite Heq. }
    pose proof (index_run_unchanged E t html Hf Hne Hv' Hp) as Hrun.
    destruct (index_unchanged_obs E t html Hf Hne Hv' Hp) as (R & _ & Q & _).
    destruct (logs_silent _ (parseOutages_logs E html)) as (_ & _ & Hg & _).
    split; [|split; [|split]].
    + rewrite Hrun. unfold trace. index_split_trace. by rewrite Hg.
    + rewrite R. simpl. by vm_compute.
    + intros Hs. exfalso. apply Hs. unfold previous in Hp.
      destruct (get_fault E Index.DYNAMO_PRIMARY_KEY); [done|].
      injection Hp as Hp. by rewrite Hp.
    + intros _. by split.
  - destruct (index_changed_obs E t html Hf Hne Hv' Heq)
      as (R & P & U & G & _).
    rewrite Hv in R, P, U.
    split; [exact G|]. split; [|split].
    + rewrite R. simpl. by vm_compute.
    + intros _. by repeat split.
    + intros Hp. rewrite Hp, Hv in Heq. simpl in Heq.
      by rewrite str_eqb_refl in Heq.
Qed.

Lemma index_row_free_district_is_reported_witness :
  value (Index.parseOutages Sample.row_free (lit "<html>"))
  = lit "Wyłączenia planowane:" ++ nl ++ nl
  ∧ gets (trace (Index.handler Sample.row_free ∅))
    = [GetItem Index.DYNAMO_TABLE_NAME Index.DYNAMO_PRIMARY_KEY]
  ∧ puts (trace (Index.handler Sample.row_free ∅))
    = [PutItem Index.DYNAMO_TABLE_NAME Index.DYNAMO_PRIMARY_KEY
         (Item Index.heading (lit "2025-07-21T06:00:00.000Z"))].
Proof.
  destruct (index_row_free_district_is_reported Sample.row_free ∅
              (lit "<html>") [Sample.bemowo]
              (Sample.ursus [Sample.short_row]) [])
    as (H1 & _ & H2 & _ & H3 & _).
  - reflexivity.
  - by vm_compute.
  - reflexivity.
  - by vm_compute.
  - repeat constructor.
  - constructor.
  - split; [exact H1|]. split; [exact H2|].
    apply H3. by vm_compute.
Defined.

(** The two-category variant treats the same document as having no data. *)
Example part000_row_free_district_is_empty :
  value (Part000.parseOutages Sample.row_free (lit "<html>")) = [].
Proof. by vm_compute. Qed.




(** C1. What the code does when the read of the previous report fails and
    the extraction is not empty: [getPreviousOutages] writes its error line
    and returns [null], [processOutages] compares the report with [null],
    finds them different, sends the notification and writes the report to
    the store.  The caller tests the result of [fetchHtmlContent] for
    [null]; it does not test the result of [getPreviousOutages]. *)
Theorem read_failure_notifies_and_saves E c t html msg :
  http_get E (Part000.url c) = resolved html → html ≠ [] →
  value (extract E c html) ≠ [] →
  get_fault E (Part000.dbKey c) = Some msg →
  unset (TELEGRAM_BOT_TOKEN E) = false → unset (TELEGRAM_CHAT_ID E) = false →
  In (ConsoleError
        [lit "Error getting item with key " ++ Part000.dbKey c
         ++ lit " from DynamoDB:"; msg])
     (trace (Part000.processOutages E c t))
  ∧ In (Part000.new_data_line c) (trace (Part000.processOutages E c t))
  ∧ posts (trace (Part000.processOutages E c t))
    = [telegram_post E (message c (value (extract E c html)))]
  ∧ puts (trace (Part000.processOutages E c t))
    = [PutItem Part000.DYNAMO_TABLE_NAME (Part000.dbKey c)
         (Item (value (extract E c html)) (now E (Part000.dbKey c)))].
Proof.
  intros Hf Hne Hv Hg Ht Hc.
  assert (Hp : strict_eq (value (extract E c html))
                 (previous E t (Part000.dbKey c)) = false).
  { unfold previous. by rewrite Hg. }
  destruct (changed_obs E c t html Hf Hne Hv Hp) as (L & P & U & _).
  rewrite (send_configured E _ t Ht Hc) in P.
  split; [|by repeat split].
  rewrite (run_changed E c t html Hf Hne Hv Hp). unfold trace at 1.
  right. right. apply in_or_app. right. apply in_or_app. left.
  unfold read_trace. rewrite Hg. right. by left.
Qed.

Lemma read_failure_notifies_and_saves_witness :
  posts (trace (Part000.processOutages Sample.read_down Part000.PLANNED ∅))
  = [telegram_post Sample.read_down
       (message Part000.PLANNED
          (value (extract Sample.read_down Part000.PLANNED (lit "<html>"))))]
  ∧ puts (trace (Part000.processOutages Sample.read_down Part000.PLANNED ∅))
    = [PutItem Part000.DYNAMO_TABLE_NAME (Part000.dbKey Part000.PLANNED)
         (Item (value (extract Sample.read_down Part000.PLANNED (lit "<html>")))
               (lit "2025-07-21T06:00:00.000Z"))].
Proof.
  destruct (read_failure_notifies_and_saves Sample.read_down Part000.PLANNED ∅
              (lit "<html>") (lit "read timed out"))
    as (_ & _ & P & U);
    [reflexivity | by vm_compute | by vm_compute | reflexivity
    | reflexivity | reflexivity |].
  by split.
Defined.

(** The single-category variant does the same on a failed read. *)
Lemma index_read_failure_notifies_and_saves E t html msg :
  http_get E Index.URL = resolved html → html ≠ [] →
  value (Index.parseOutages E html) ≠ [] →
  get_fault E Index.DYNAMO_PRIMARY_KEY = Some msg →
  unset (TELEGRAM_BOT_TOKEN E) = false → unset (TELEGRAM_CHAT_ID E) = false →
  posts (trace (Index.handler E t))
  = [telegram_post E (value (Index.parseOutages E html))]
  ∧ puts (trace (Index.handler E t))
    = [PutItem Index.DYNAMO_TABLE_NAME Index.DYNAMO_PRIMARY_KEY
         (Item (value (Index.parseOutages E html))
               (now E Index.DYNAMO_PRIMARY_KEY))].
Proof.
  intros Hf Hne Hv Hg Ht Hc.
  assert (Hp : strict_eq (value (Index.parseOutages E html))
                 (previous E t Index.DYNAMO_PRIMARY_KEY) = false).
  { unfold previous. by rewrite Hg. }
  destruct (index_changed_obs E t html Hf Hne Hv Hp) as (_ & P & U & _).
  by rewrite (index_send_configured E _ t Ht Hc) in P.
Qed.

Lemma strict_eq_previous E t key text :
  strict_eq text (previous E t key) = true → previous E t key = Some text.
Proof.
  destruct (previous E t key) as [p|]; [|done]. simpl.
  by intros ->%str_eqb_eq.
Qed.

(** A report written to the store is never the empty string. *)
Lemma writes_are_nonempty E c t e :
  In e (puts (trace (Part000.processOutages E c t))) →
  ∃ it, e = PutItem Part000.DYNAMO_TABLE_NAME (Part000.dbKey c) it
        ∧ outageData it ≠ [].
Proof.
  destruct (http_get E (Part000.url c)) as [html|msg] eqn:Hf.
  2: { by rewrite (run_fetch_rejected E c t msg Hf). }
  destruct html as [|x html'] eqn:Hh.
  { by rewrite (run_fetch_empty E c t Hf). }
  rewrite <-Hh in Hf. assert (Hne : html ≠ []) by by rewrite Hh.
  clear Hh. destruct (value (extract E c html)) as [|y text'] eqn:Hv.
  { destruct (no_data_obs E c t html Hf Hne Hv) as (_ & _ & [_ ->] & _).
    by intros []. }
  assert (Hv' : value (extract E c html) ≠ []) by by rewrite Hv.
  destruct (strict_eq (value (extract E c html))
              (previous E t (Part000.dbKey c))) eqn:Heq.
  - apply strict_eq_previous in Heq.
    destruct (unchanged_obs E c t html Hf Hne Hv' Heq) as (_ & _ & [_ ->] & _).
    by intros [].
  - destruct (changed_obs E c t html Hf Hne Hv' Heq) as (_ & _ & -> & _).
    intros [<-|[]]. by eexists.
Qed.

Lemma index_writes_are_nonempty E t e :
  In e (puts (trace (Index.handler E t))) →
  ∃ it, e = PutItem Index.DYNAMO_TABLE_NAME Index.DYNAMO_PRIMARY_KEY it
        ∧ outageData it ≠ [].
Proof.
  destruct (http_get E Index.URL) as [html|msg] eqn:Hf.
  2: { by rewrite (index_run_fetch_rejected E t msg Hf). }
  destruct html as [|x html'] eqn:Hh.
  { by rewrite (index_run_fetch_empty E t Hf). }
  rewrite <-Hh in Hf. assert (Hne : html ≠ []) by by rewrite Hh.
  clear Hh. destruct (value (Index.parseOutages E html)) as [|y text'] eqn:Hv.
  { destruct (index_no_data_obs E t html Hf Hne Hv) as (_ & _ & [_ ->] & _).
    by intros []. }
  assert (Hv' : value (Index.parseOutages E html) ≠ []) by by rewrite Hv.
  destruct (strict_eq (value (Index.parseOutages E html))
              (previous E t Index.DYNAMO_PRIMARY_KEY)) eqn:Heq.
  - apply strict_eq_previous in Heq.
    destruct (index_unchanged_obs E t html Hf Hne Hv' Heq)
      as (_ & _ & [_ ->] & _).
    by intros [].
  - destruct (index_changed_obs E t html Hf Hne Hv' Heq) as (_ & _ & -> & _).
    intros [<-|[]]. by eexists.
Qed.

(** After a served write of the report, a served read returns it. *)
Lemma previous_after_save E E' key text t :
  put_fault E key = None → get_fault E' key = None →
  previous E' (table_after (Part000.saveNewOutages E key text t)) key
  = Some text.
Proof.
  intros Hu Hg. rewrite (save_served E key text t Hu). unfold previous.
  rewrite Hg. unfold table_after. simpl. by rewrite stored_insert.
Qed.

Lemma index_previous_after_save E E' text t :
  put_fault E Index.DYNAMO_PRIMARY_KEY = None →
  get_fault E' Index.DYNAMO_PRIMARY_KEY = None →
  previous E' (table_after (Index.saveNewOutages E text t))
    Index.DYNAMO_PRIMARY_KEY
  = Some text.
Proof.
  intros Hu Hg. rewrite (index_save_served E text t Hu). unfold previous.
  rewrite Hg. unfold table_after. simpl. by rewrite stored_insert.
Qed.

(** The second of two runs on one document, in the two-category variant. *)
Lemma second_run_unchanged E1 E2 c t html :
  http_get E1 (Part000.url c) = resolved html →
  http_get E2 (Part000.url c) = resolved html →
  cheerio_load E1 html = cheerio_load E2 html →
  html ≠ [] → value (extract E1 c html) ≠ [] →
  stored t (Part000.dbKey c) ≠ value (extract E1 c html) →
  put_fault E1 (Part000.dbKey c) = None →
  get_fault E2 (Part000.dbKey c) = None →
  let r1 := Part000.processOutages E1 c t in
  let r2 := Part000.processOutages E2 c (table_after r1) in
  In (Part000.no_changes_line c) (trace r2)
  ∧ quiet (trace r2)
  ∧ table_after r2 = table_after r1
  ∧ stored (table_after r1) (Part000.dbKey c) = value (extract E1 c html)
  ∧ posts (trace r1 ++ trace r2)
    = posts (trace (Part000.sendTelegramMessage E1
                      (message c (value (extract E1 c html))) t)).
Proof.
  intros H1 H2 Hpage Hne Hv Hs Hu Hg r1 r2.
  pose proof (differs_strict E1 t _ _ Hs) as Hd.
  destruct (changed_obs E1 c t html H1 Hne Hv Hd) as (_ & P & _ & _ & T).
  pose proof (previous_after_save E1 E2 _ (value (extract E1 c html)) t Hu Hg)
    as Hp.
  rewrite <-T in Hp. fold r1 in Hp, P, T.
  rewrite (extract_same_page E1 E2 c html Hpage) in Hp, Hv.
  destruct (unchanged_obs E2 c (table_after r1) html H2 Hne Hv Hp)
    as (L & _ & Q & T').
  fold r2 in L, Q, T'.
  split; [exact L|]. split; [exact Q|]. split; [exact T'|]. split.
  - rewrite T, (save_served E1 _ _ t Hu). unfold table_after. simpl.
    apply stored_insert.
  - rewrite posts_app, P. destruct Q as [-> _]. apply app_nil_r.
Qed.

(** The second of two runs on one document, in the single-category variant. *)
Lemma index_second_run_unchanged E1 E2 t html :
  http_get E1 Index.URL = resolved html →
  http_get E2 Index.URL = resolved html →
  cheerio_load E1 html = cheerio_load E2 html →
  html ≠ [] → value (Index.parseOutages E1 html) ≠ [] →
  stored t Index.DYNAMO_PRIMARY_KEY ≠ value (Index.parseOutages E1 html) →
  put_fault E1 Index.DYNAMO_PRIMARY_KEY = None →
  get_fault E2 Index.DYNAMO_PRIMARY_KEY = None →
  let r1 := Index.handler E1 t in
  let r2 := Index.handler E2 (table_after r1) in
  returned r2 = Response 200 (lit "No new water outages.") None
  ∧ quiet (trace r2)
  ∧ table_after r2 = table_after r1
  ∧ posts (trace r1 ++ trace r2)
    = posts (trace (Index.sendTelegramMessage E1
                      (value (Index.parseOutages E1 html)) t)).
Proof.
  intros H1 H2 Hpage Hne Hv Hs Hu Hg r1 r2.
  pose proof (differs_strict E1 t _ _ Hs) as Hd.
  destruct (index_changed_obs E1 t html H1 Hne Hv Hd) as (_ & P & _ & _ & T).
  pose proof (index_previous_after_save E1 E2
                (value (Index.parseOutages E1 html)) t Hu Hg) as Hp.
  rewrite <-T in Hp. fold r1 in Hp, P, T.
  rewrite (index_parse_same_page E1 E2 html Hpage) in Hp, Hv.
  destruct (index_unchanged_obs E2 (table_after r1) html H2 Hne Hv Hp)
    as (L & _ & Q & T').
  fold r2 in L, Q, T'.
  split; [exact L|]. split; [exact Q|]. split; [exact T'|].
  rewrite posts_app, P. destruct Q as [-> _]. apply app_nil_r.
Qed.

(** C3. When the report extracted from the document equals the report read
    from the store, the run ends with its "No changes" line (in the
    single-category variant with the answer "No new water outages."), sends
    no notification and leaves the store as it was.  The report is taken not
    to be empty, as every report the program has written to the store is
    ([writes_are_nonempty], [index_writes_are_nonempty]).  Hence, of two runs in
    succession on one document, the first starting from a store that holds
    another report, its write and the second read being served: the second
    run ends with "No changes", sends no notification and writes nothing,
    and the notifications of the two runs together are those of the single
    call of [sendTelegramMessage] in the first run, one request when the
    Telegram credentials are set. *)
Theorem unchanged_report_is_idempotent :
  (∀ E c t html,
     http_get E (Part000.url c) = resolved html → html ≠ [] →
     value (extract E c html) ≠ [] →
     previous E t (Part000.dbKey c) = Some (value (extract E c html)) →
     In (Part000.no_changes_line c) (trace (Part000.processOutages E c t))
     ∧ quiet (trace (Part000.processOutages E c t))
     ∧ table_after (Part000.processOutages E c t) = t)
  ∧ (∀ E t html,
     http_get E Index.URL = resolved html → html ≠ [] →
     value (Index.parseOutages E html) ≠ [] →
     previous E t Index.DYNAMO_PRIMARY_KEY
     = Some (value (Index.parseOutages E html)) →
     returned (Index.handler E t)
     = Response 200 (lit "No new water outages.") None
     ∧ quiet (trace (Index.handler E t))
     ∧ table_after (Index.handler E t) = t)
  ∧ (∀ E1 E2 c t html,
     http_get E1 (Part000.url c) = resolved html →
     http_get E2 (Part000.url c) = resolved html →
     cheerio_load E1 html = cheerio_load E2 html →
     html ≠ [] → value (extract E1 c html) ≠ [] →
     stored t (Part000.dbKey c) ≠ value (extract E1 c html) →
     put_fault E1 (Part000.dbKey c) = None →
     get_fault E2 (Part000.dbKey c) = None →
     let r1 := Part000.processOutages E1 c t in
     let r2 := Part000.processOutages E2 c (table_after r1) in
     In (Part000.no_changes_line c) (trace r2)
     ∧ quiet (trace r2)
     ∧ posts (trace r1 ++ trace r2)
       = posts (trace (Part000.sendTelegramMessage E1
                         (message c (value (extract E1 c html))) t))
     ∧ (unset (TELEGRAM_BOT_TOKEN E1) = false →
        unset (TELEGRAM_CHAT_ID E1) = false →
        posts (trace r1 ++ trace r2)
        = [telegram_post E1 (message c (value (extract E1 c html)))]))
  ∧ (∀ E1 E2 t html,
     http_get E1 Index.URL = resolved html →
     http_get E2 Index.URL = resolved html →
     cheerio_load E1 html = cheerio_load E2 html →
     html ≠ [] → value (Index.parseOutages E1 html) ≠ [] →
     stored t Index.DYNAMO_PRIMARY_KEY ≠ value (Index.parseOutages E1 html) →
     put_fault E1 Index.DYNAMO_PRIMARY_KEY = None →
     get_fault E2 Index.DYNAMO_PRIMARY_KEY = None →
     let r1 := Index.handler E1 t in
     let r2 := Index.handler E2 (table_after r1) in
     returned r2 = Response 200 (lit "No new water outages.") None
     ∧ quiet (trace r2)
     ∧ posts (trace r1 ++ trace r2)
       = posts (trace (Index.sendTelegramMessage E1
                         (value (Index.parseOutages E1 html)) t))
     ∧ (unset (TELEGRAM_BOT_TOKEN E1) = false →
        unset (TELEGRAM_CHAT_ID E1) = false →
        posts (trace r1 ++ trace r2)
        = [telegram_post E1 (value (Index.parseOutages E1 html))])).
Proof.
  split; [|split; [|split]].
  - intros E c t html Hf Hne Hv Hp.
    by destruct (unchanged_obs E c t html Hf Hne Hv Hp) as (L & _ & Q & T).
  - intros E t html Hf Hne Hv Hp.
    by destruct (index_unchanged_obs E t html Hf Hne Hv Hp) as (L & _ & Q & T).
  - intros E1 E2 c t html H1 H2 Hpage Hne Hv Hs Hu Hg r1 r2.
    destruct (second_run_unchanged E1 E2 c t html H1 H2 Hpage Hne Hv Hs Hu Hg)
      as (L & Q & _ & _ & P).
    fold r1 r2 in L, Q, P. repeat split; try done; try apply Q.
    intros Ht Hc. rewrite P. by apply send_configured.
  - intros E1 E2 t html H1 H2 Hpage Hne Hv Hs Hu Hg r1 r2.
    destruct (index_second_run_unchanged E1 E2 t html H1 H2 Hpage Hne Hv Hs Hu Hg)
      as (L & Q & _ & P).
    fold r1 r2 in L, Q, P. repeat split; try done; try apply Q.
    intros Ht Hc. rewrite P. by apply index_send_configured.
Qed.

Lemma unchanged_report_is_idempotent_witness :
  (let r1 := Part000.processOutages Sample.calm Part000.EMERGENCY ∅ in
   let r2 := Part000.processOutages Sample.calm Part000.EMERGENCY (table_after r1) in
   In (Part000.no_changes_line Part000.EMERGENCY) (trace r2)
   ∧ length (posts (trace r1 ++ trace r2)) = 1%nat)
  ∧ (let r1 := Index.handler Sample.calm ∅ in
     let r2 := Index.handler Sample.calm (table_after r1) in
     returned r2 = Response 200 (lit "No new water outages.") None
     ∧ length (posts (trace r1 ++ trace r2)) = 1%nat).
Proof.
  destruct unchanged_report_is_idempotent as (_ & _ & P & I).
  split.
  - destruct (P Sample.calm Sample.calm Part000.EMERGENCY ∅ (lit "<html>"))
      as (L & _ & _ & N);
      [reflexivity | reflexivity | reflexivity | by vm_compute | by vm_compute
      | by vm_compute | reflexivity | reflexivity |].
    split; [exact L|]. by rewrite N.
  - destruct (I Sample.calm Sample.calm ∅ (lit "<html>"))
      as (L & _ & _ & N);
      [reflexivity | reflexivity | reflexivity | by vm_compute | by vm_compute
      | by vm_compute | reflexivity | reflexivity |].
    split; [exact L|]. by rewrite N.
Defined.

(** C6. In a run whose report differs from the stored one, a rejected
    Telegram request is written as an error line and the run goes on to
    write the report under the category's key.  When that write is served,
    the store then holds the report, and the next run on the same document,
    its read being served, ends with "No changes": no notification, no
    write. *)
Theorem notify_failure_still_persists E1 c t html msg :
  http_get E1 (Part000.url c) = resolved html → html ≠ [] →
  value (extract E1 c html) ≠ [] →
  stored t (Part000.dbKey c) ≠ value (extract E1 c html) →
  unset (TELEGRAM_BOT_TOKEN E1) = false → unset (TELEGRAM_CHAT_ID E1) = false →
  http_post E1 (lit "https://api.telegram.org/bot"
                ++ env_string (TELEGRAM_BOT_TOKEN E1) ++ lit "/sendMessage")
    (env_string (TELEGRAM_CHAT_ID E1))
    (message c (value (extract E1 c html))) = rejected msg →
  let r1 := Part000.processOutages E1 c t in
  In (ConsoleError [lit "Error sending message to Telegram:"; msg]) (trace r1)
  ∧ puts (trace r1)
    = [PutItem Part000.DYNAMO_TABLE_NAME (Part000.dbKey c)
         (Item (value (extract E1 c html)) (now E1 (Part000.dbKey c)))]
  ∧ (put_fault E1 (Part000.dbKey c) = None →
     stored (table_after r1) (Part000.dbKey c) = value (extract E1 c html)
     ∧ ∀ E2,
         http_get E2 (Part000.url c) = resolved html →
         cheerio_load E1 html = cheerio_load E2 html →
         get_fault E2 (Part000.dbKey c) = None →
         let r2 := Part000.processOutages E2 c (table_after r1) in
         In (Part000.no_changes_line c) (trace r2) ∧ quiet (trace r2)).
Proof.
  intros H1 Hne Hv Hs Ht Hc Hpost r1.
  pose proof (differs_strict E1 t _ _ Hs) as Hd.
  destruct (changed_obs E1 c t html H1 Hne Hv Hd) as (_ & _ & U & _ & T).
  split; [|split; [exact U|]].
  - unfold r1. rewrite (run_changed E1 c t html H1 Hne Hv Hd).
    rewrite (send_rejected E1 _ t msg Ht Hc Hpost). unfold trace at 1 2.
    right. right. apply in_or_app. right. apply in_or_app. right.
    right. right. by left.
  - intros Hu.
    split.
    + unfold r1. rewrite T, (save_served E1 _ _ t Hu). unfold table_after.
      simpl. apply stored_insert.
    + intros E2 H2 Hpage Hg r2.
      by destruct (second_run_unchanged E1 E2 c t html H1 H2 Hpage Hne Hv Hs Hu Hg)
        as (L & Q & _).
Qed.

Lemma notify_failure_still_persists_witness :
  let r1 := Part000.processOutages Sample.telegram_down Part000.PLANNED ∅ in
  let r2 := Part000.processOutages Sample.calm Part000.PLANNED (table_after r1) in
  In (ConsoleError [lit "Error sending message to Telegram:"; lit "ETIMEDOUT"])
     (trace r1)
  ∧ In (Part000.no_changes_line Part000.PLANNED) (trace r2)
  ∧ quiet (trace r2).
Proof.
  intros r1 r2.
  destruct (notify_failure_still_persists Sample.telegram_down Part000.PLANNED
              ∅ (lit "<html>") (lit "ETIMEDOUT"))
    as (L & _ & N);
    [reflexivity | by vm_compute | by vm_compute | by vm_compute
    | reflexivity | reflexivity | reflexivity |].
  split; [exact L|].
  destruct (N eq_refl) as (_ & N').
  apply (N' Sample.calm); reflexivity.
Defined.

(** C9. In a run that reaches the write, a rejected write is written as an
    error line by [saveNewOutages]; the notification of the run has been
    sent before and stays sent, and the store holds what it held.  The
    handler of the single-category variant still answers 200, "New water
    outage data found, notified, and saved.".  The next run on the same
    document, its read being served, finds the report different from the
    store again: it writes its "New data" line, notifies again and tries the
    write again. *)
Theorem write_failure_is_redetected :
  (∀ E1 E2 c t html msg,
     http_get E1 (Part000.url c) = resolved html →
     http_get E2 (Part000.url c) = resolved html →
     cheerio_load E1 html = cheerio_load E2 html →
     html ≠ [] → value (extract E1 c html) ≠ [] →
     stored t (Part000.dbKey c) ≠ value (extract E1 c html) →
     put_fault E1 (Part000.dbKey c) = Some msg →
     get_fault E2 (Part000.dbKey c) = None →
     let text := value (extract E1 c html) in
     let r1 := Part000.processOutages E1 c t in
     let r2 := Part000.processOutages E2 c (table_after r1) in
     In (ConsoleError [lit "Error saving item with key " ++ Part000.dbKey c
                       ++ lit " to DynamoDB:"; msg]) (trace r1)
     ∧ posts (trace r1)
       = posts (trace (Part000.sendTelegramMessage E1 (message c text) t))
     ∧ (unset (TELEGRAM_BOT_TOKEN E1) = false →
        unset (TELEGRAM_CHAT_ID E1) = false →
        posts (trace r1) = [telegram_post E1 (message c text)])
     ∧ table_after r1 = t
     ∧ In (Part000.new_data_line c) (trace r2)
     ∧ (unset (TELEGRAM_BOT_TOKEN E2) = false →
        unset (TELEGRAM_CHAT_ID E2) = false →
        posts (trace r2) = [telegram_post E2 (message c text)])
     ∧ puts (trace r2)
       = [PutItem Part000.DYNAMO_TABLE_NAME (Part000.dbKey c)
            (Item text (now E2 (Part000.dbKey c)))])
  ∧ (∀ E1 E2 t html msg,
     http_get E1 Index.URL = resolved html →
     http_get E2 Index.URL = resolved html →
     cheerio_load E1 html = cheerio_load E2 html →
     html ≠ [] → value (Index.parseOutages E1 html) ≠ [] →
     stored t Index.DYNAMO_PRIMARY_KEY ≠ value (Index.parseOutages E1 html) →
     put_fault E1 Index.DYNAMO_PRIMARY_KEY = Some msg →
     get_fault E2 Index.DYNAMO_PRIMARY_KEY = None →
     let text := value (Index.parseOutages E1 html) in
     let r1 := Index.handler E1 t in
     let r2 := Index.handler E2 (table_after r1) in
     In (ConsoleError [lit "Error saving item to DynamoDB:"; msg]) (trace r1)
     ∧ returned r1
       = Response 200 (lit "New water outage data found, notified, and saved.")
           (Some text)
     ∧ (unset (TELEGRAM_BOT_TOKEN E1) = false →
        unset (TELEGRAM_CHAT_ID E1) = false →
        posts (trace r1) = [telegram_post E1 text])
     ∧ table_after r1 = t
     ∧ (unset (TELEGRAM_BOT_TOKEN E2) = false →
        unset (TELEGRAM_CHAT_ID E2) = false →
        posts (trace r2) = [telegram_post E2 text])
     ∧ puts (trace r2)
       = [PutItem Index.DYNAMO_TABLE_NAME Index.DYNAMO_PRIMARY_KEY
            (Item text (now E2 Index.DYNAMO_PRIMARY_KEY))]).
Proof.
  split.
  - intros E1 E2 c t html msg H1 H2 Hpage Hne Hv Hs Hu Hg text r1 r2.
    pose proof (differs_strict E1 t _ _ Hs) as Hd.
    destruct (changed_obs E1 c t html H1 Hne Hv Hd) as (_ & P & _ & _ & T).
    fold r1 text in P, T.
    rewrite (save_rejected E1 _ _ t msg Hu) in T.
    unfold table_after at 2 in T. simpl in T.
    assert (Hv2 : value (extract E2 c html) = text).
    { by rewrite <-(extract_same_page E1 E2 c html Hpage). }
    assert (Hd2 : strict_eq (value (extract E2 c html))
                    (previous E2 (table_after r1) (Part000.dbKey c)) = false).
    { rewrite T, Hv2. by apply differs_strict. }
    assert (Hv' : value (extract E2 c html) ≠ []) by by rewrite Hv2.
    destruct (changed_obs E2 c (table_after r1) html H2 Hne Hv' Hd2)
      as (L2 & P2 & U2 & _ & _).
    fold r2 in L2, P2, U2. rewrite Hv2 in P2, U2.
    split; [|split; [exact P|split; [|split; [exact T|split; [exact L2|split]]]]].
    + unfold r1. rewrite (run_changed E1 c t html H1 Hne Hv Hd).
      rewrite (save_rejected E1 _ _ t msg Hu). unfold trace at 1 3.
      right. right. apply in_or_app. right. apply in_or_app. right.
      right. apply in_or_app. right. right. by left.
    + intros Ht Hc. rewrite P. by apply send_configured.
    + intros Ht Hc. rewrite P2. by apply send_configured.
    + exact U2.
  - intros E1 E2 t html msg H1 H2 Hpage Hne Hv Hs Hu Hg text r1 r2.
    pose proof (differs_strict E1 t _ _ Hs) as Hd.
    destruct (index_changed_obs E1 t html H1 Hne Hv Hd) as (R & P & _ & _ & T).
    fold r1 text in R, P, T.
    rewrite (index_save_rejected E1 _ t msg Hu) in T.
    unfold table_after at 2 in T. simpl in T.
    assert (Hv2 : value (Index.parseOutages E2 html) = text).
    { by rewrite <-(index_parse_same_page E1 E2 html Hpage). }
    assert (Hd2 : strict_eq (value (Index.parseOutages E2 html))
                    (previous E2 (table_after r1) Index.DYNAMO_PRIMARY_KEY)
                  = false).
    { rewrite T, Hv2. by apply differs_strict. }
    assert (Hv' : value (Index.parseOutages E2 html) ≠ []) by by rewrite Hv2.
    destruct (index_changed_obs E2 (table_after r1) html H2 Hne Hv' Hd2)
      as (_ & P2 & U2 & _ & _).
    fold r2 in P2, U2. rewrite Hv2 in P2, U2.
    split; [|split; [exact R|split; [|split; [exact T|split]]]].
    + unfold r1. rewrite (index_run_changed E1 t html H1 Hne Hv Hd).
      rewrite (index_save_rejected E1 _ t msg Hu). unfold trace at 1 3.
      right. right. right. apply in_or_app. right. right.
      apply in_or_app. right. right. apply in_or_app. right. right. by left.
    + intros Ht Hc. rewrite P. by apply index_send_configured.
    + intros Ht Hc. rewrite P2. by apply index_send_configured.
    + exact U2.
Qed.

Lemma write_failure_is_redetected_witness :
  (let r1 := Part000.processOutages Sample.write_down Part000.EMERGENCY ∅ in
   let r2 := Part000.processOutages Sample.calm Part000.EMERGENCY (table_after r1) in
   table_after r1 = ∅
   ∧ length (posts (trace r1)) = 1%nat
   ∧ In (Part000.new_data_line Part000.EMERGENCY) (trace r2)
   ∧ length (posts (trace r2)) = 1%nat)
  ∧ (let r1 := Index.handler Sample.write_down ∅ in
     let r2 := Index.handler Sample.calm (table_after r1) in
     In (ConsoleError [lit "Error saving item to DynamoDB:"; lit "throttled"])
        (trace r1)
     ∧ length (posts (trace r2)) = 1%nat).
Proof.
  destruct write_failure_is_redetected as (P & I).
  split.
  - destruct (P Sample.write_down Sample.calm Part000.EMERGENCY ∅
                (lit "<html>") (lit "throttled"))
      as (_ & _ & N1 & T & L & N2 & _);
      [reflexivity | reflexivity | reflexivity | by vm_compute | by vm_compute
      | by vm_compute | reflexivity | reflexivity |].
    split; [exact T|]. split; [by rewrite N1|]. split; [exact L|].
    by rewrite N2.
  - destruct (I Sample.write_down Sample.calm ∅ (lit "<html>") (lit "throttled"))
      as (L & _ & _ & _ & N2 & _);
      [reflexivity | reflexivity | reflexivity | by vm_compute | by vm_compute
      | by vm_compute | reflexivity | reflexivity |].
    split; [exact L|]. by rewrite N2.
Defined.

End claims.

(** * Further properties of the two variants *)

Module More.

(** The requests for a page in a trace. *)
Definition is_fetch (e : event) : bool :=
  match e with HttpGet _ => true | _ => false end.
Definition fetches (tr : list event) : list event := List.filter is_fetch tr.

(** The store holds the current report of a category, whenever the page
    gives one. *)
Definition up_to_date (E : env) (c : Part000.outage_type)
  (t : gmap jsstring item) : Prop :=
  ∀ html, http_get E (Part000.url c) = resolved html → html ≠ [] →
    value (Part000Run.extract E c html) ≠ [] →
    stored t (Part000.dbKey c) = value (Part000Run.extract E c html).

Definition index_up_to_date (E : env) (t : gmap jsstring item) : Prop :=
  ∀ html, http_get E Index.URL = resolved html → html ≠ [] →
    value (Index.parseOutages E html) ≠ [] →
    stored t Index.DYNAMO_PRIMARY_KEY = value (Index.parseOutages E html).

(** An outside that differs from [E] in the Telegram credentials and in the
    answers of the Telegram endpoint only. *)
Definition other_telegram (E : env) (token chat : option jsstring)
  (post : jsstring → jsstring → jsstring → settled unit) : env :=
  Env token chat (http_get E) post (cheerio_load E) (get_fault E)
      (put_fault E) (now E).

(** An outside that differs from [E] in Telegram and in the faults of the
    store writes only. *)
Definition other_telegram_and_writes (E : env) (token chat : option jsstring)
  (post : jsstring → jsstring → jsstring → settled unit)
  (put : jsstring → option jsstring) : env :=
  Env token chat (http_get E) post (cheerio_load E) (get_fault E)
      put (now E).

End More.
Export More.

Section further.
Import Part000Parse Part000Districts Part000Run Part000Obs.
Import IndexParse IndexRun IndexObs.

(** The three ways a category's run can go. *)
Lemma processOutages_cases E c t :
  let r := Part000.processOutages E c t in
  (quiet (trace r) ∧ gets (trace r) = [] ∧ table_after r = t
   ∧ (fetch_fails E (Part000.url c)
      ∨ ∃ html, http_get E (Part000.url c) = resolved html ∧ html ≠ []
                ∧ value (extract E c html) = []))
  ∨ (∃ html, http_get E (Part000.url c) = resolved html ∧ html ≠ []
       ∧ value (extract E c html) ≠ []
       ∧ previous E t (Part000.dbKey c) = Some (value (extract E c html))
       ∧ quiet (trace r)
       ∧ gets (trace r) = [GetItem Part000.DYNAMO_TABLE_NAME (Part000.dbKey c)]
       ∧ table_after r = t)
  ∨ (∃ html, http_get E (Part000.url c) = resolved html ∧ html ≠ []
       ∧ value (extract E c html) ≠ []
       ∧ strict_eq (value (extract E c html))
           (previous E t (Part000.dbKey c)) = false
       ∧ posts (trace r)
         = posts (trace (Part000.sendTelegramMessage E
                           (message c (value (extract E c html))) t))
       ∧ puts (trace r)
         = [PutItem Part000.DYNAMO_TABLE_NAME (Part000.dbKey c)
              (Item (value (extract E c html)) (now E (Part000.dbKey c)))]
       ∧ gets (trace r) = [GetItem Part000.DYNAMO_TABLE_NAME (Part000.dbKey c)]
       ∧ table_after r
         = table_after (Part000.saveNewOutages E (Part000.dbKey c)
                          (value (extract E c html)) t)).
Proof.
  intros r. unfold r.
  destruct (http_get E (Part000.url c)) as [html|msg] eqn:Hf.
  2: { left. rewrite (run_fetch_rejected E c t msg Hf).
       repeat split. left. left. by exists msg. }
  destruct (decide (html = [])) as [->|Hne].
  { left. rewrite (run_fetch_empty E c t Hf). repeat split. left. by right. }
  destruct (decide (value (extract E c html) = [])) as [Hv|Hv'].
  { left. destruct (no_data_obs E c t html Hf Hne Hv) as (_ & _ & Q & G & T).
    repeat split; try done; try apply Q. right. by exists html. }
  destruct (strict_eq (value (extract E c html))
              (previous E t (Part000.dbKey c))) eqn:Heq.
  - right. left. exists html.
    assert (Hp : previous E t (Part000.dbKey c)
                 = Some (value (extract E c html))).
    { destruct (previous E t (Part000.dbKey c)) as [p|]; [|done].
      simpl in Heq. apply str_eqb_eq in Heq. by rewrite Heq. }
    destruct (unchanged_obs E c t html Hf Hne Hv' Hp) as (_ & _ & Q & T).
    repeat split; try done; try apply Q.
    rewrite (run_unchanged E c t html Hf Hne Hv' Hp).
    destruct (logs_silent _ (extract_logs E c html)) as (_ & _ & Hg & _).
    unfold trace. split_trace. by rewrite Hg.
  - right. right. exists html.
    destruct (changed_obs E c t html Hf Hne Hv' Heq) as (_ & P & U & G & T).
    by repeat split.
Qed.

(** The four ways the handler of the single-category variant can go. *)
Lemma index_handler_cases E t :
  let r := Index.handler E t in
  (fetch_fails E Index.URL
   ∧ returned r = Response 500 (lit "Failed to fetch HTML content.") None
   ∧ quiet (trace r) ∧ gets (trace r) = [] ∧ table_after r = t)
  ∨ (∃ html, http_get E Index.URL = resolved html ∧ html ≠ []
       ∧ value (Index.parseOutages E html) = []
       ∧ returned r = Response 200 (lit "No outages found.") None
       ∧ quiet (trace r) ∧ gets (trace r) = [] ∧ table_after r = t)
  ∨ (∃ html, http_get E Index.URL = resolved html ∧ html ≠ []
       ∧ value (Index.parseOutages E html) ≠ []
       ∧ previous E t Index.DYNAMO_PRIMARY_KEY
         = Some (value (Index.parseOutages E html))
       ∧ returned r = Response 200 (lit "No new water outages.") None
       ∧ quiet (trace r)
       ∧ gets (trace r)
         = [GetItem Index.DYNAMO_TABLE_NAME Index.DYNAMO_PRIMARY_KEY]
       ∧ table_after r = t)
  ∨ (∃ html, http_get E Index.URL = resolved html ∧ html ≠ []
       ∧ value (Index.parseOutages E html) ≠ []
       ∧ strict_eq (value (Index.parseOutages E html))
           (previous E t Index.DYNAMO_PRIMARY_KEY) = false
       ∧ returned r
         = Response 200
             (lit "New water outage data found, notified, and saved.")
             (Some (value (Index.parseOutages E html)))
       ∧ posts (trace r)
         = posts (trace (Index.sendTelegramMessage E
                           (value (Index.parseOutages E html)) t))
       ∧ puts (trace r)
         = [PutItem Index.DYNAMO_TABLE_NAME Index.DYNAMO_PRIMARY_KEY
              (Item (value (Index.parseOutages E html))
                    (now E Index.DYNAMO_PRIMARY_KEY))]
       ∧ gets (trace r)
         = [GetItem Index.DYNAMO_TABLE_NAME Index.DYNAMO_PRIMARY_KEY]
       ∧ table_after r
         = table_after (Index.saveNewOutages E
                          (value (Index.parseOutages E html)) t)).
Proof.
  intros r. unfold r.
  destruct (http_get E Index.URL) as [html|msg] eqn:Hf.
  2: { left. rewrite (index_run_fetch_rejected E t msg Hf).
       repeat split. left. by exists msg. }
  destruct (decide (html = [])) as [->|Hne].
  { left. rewrite (index_run_fetch_empty E t Hf). repeat split. by right. }
  destruct (decide (value (Index.parseOutages E html) = [])) as [Hv|Hv'].
  { right. left. exists html.
    destruct (index_no_data_obs E t html Hf Hne Hv) as (R & _ & Q & G & T).
    repeat split; try done; try apply Q. }
  destruct (strict_eq (value (Index.parseOutages E html))
              (previous E t Index.DYNAMO_PRIMARY_KEY)) eqn:Heq.
  - right. right. left. exists html.
    pose proof (strict_eq_previous _ _ _ _ Heq) as Hp.
    destruct (index_unchanged_obs E t html Hf Hne Hv' Hp) as (R & _ & Q & T).
    repeat split; try done; try apply Q.
    rewrite (index_run_unchanged E t html Hf Hne Hv' Hp).
    destruct (logs_silent _ (parseOutages_logs E html)) as (_ & _ & Hg & _).
    unfold trace. index_split_trace. by rewrite Hg.
  - right. right. right. exists html.
    destruct (index_changed_obs E t html Hf Hne Hv' Heq) as (R & P & U & G & T).
    by repeat split.
Qed.

(** The requests of one call of [sendTelegramMessage]. *)
Lemma send_posts E m t :
  posts (trace (Part000.sendTelegramMessage E m t))
  = if unset (TELEGRAM_BOT_TOKEN E) || unset (TELEGRAM_CHAT_ID E)
    then [] else [telegram_post E m].
Proof.
  destruct (unset (TELEGRAM_BOT_TOKEN E)) eqn:Ht.
  { unfold Part000.sendTelegramMessage. by rewrite Ht. }
  destruct (unset (TELEGRAM_CHAT_ID E)) eqn:Hc.
  { unfold Part000.sendTelegramMessage. by rewrite Ht, Hc. }
  by apply send_configured.
Qed.

Lemma index_send_posts E m t :
  posts (trace (Index.sendTelegramMessage E m t))
  = if unset (TELEGRAM_BOT_TOKEN E) || unset (TELEGRAM_CHAT_ID E)
    then [] else [telegram_post E m].
Proof.
  destruct (unset (TELEGRAM_BOT_TOKEN E)) eqn:Ht.
  { unfold Index.sendTelegramMessage. by rewrite Ht. }
  destruct (unset (TELEGRAM_CHAT_ID E)) eqn:Hc.
  { unfold Index.sendTelegramMessage. by rewrite Ht, Hc. }
  by apply index_send_configured.
Qed.

(** The table after [saveNewOutages]. *)
Lemma save_table E key text t :
  table_after (Part000.saveNewOutages E key text t)
  = match put_fault E key with
    | Some _ => t
    | None => <[key := Item text (now E key)]> t
    end.
Proof.
  destruct (put_fault E key) as [msg|] eqn:H.
  - by rewrite (save_rejected E key text t msg H).
  - by rewrite (save_served E key text t H).
Qed.

Lemma index_save_table E text t :
  table_after (Index.saveNewOutages E text t)
  = match put_fault E Index.DYNAMO_PRIMARY_KEY with
    | Some _ => t
    | None => <[Index.DYNAMO_PRIMARY_KEY
                := Item text (now E Index.DYNAMO_PRIMARY_KEY)]> t
    end.
Proof.
  destruct (put_fault E Index.DYNAMO_PRIMARY_KEY) as [msg|] eqn:H.
  - by rewrite (index_save_rejected E text t msg H).
  - by rewrite (index_save_served E text t H).
Qed.

Lemma handler_obs E t :
  posts (trace (Part000.handler E t))
  = posts (trace (Part000.processOutages E Part000.EMERGENCY t))
    ++ posts (trace (Part000.processOutages E Part000.PLANNED
                       (table_after (Part000.processOutages E Part000.EMERGENCY t))))
  ∧ puts (trace (Part000.handler E t))
    = puts (trace (Part000.processOutages E Part000.EMERGENCY t))
      ++ puts (trace (Part000.processOutages E Part000.PLANNED
                        (table_after (Part000.processOutages E Part000.EMERGENCY t))))
  ∧ table_after (Part000.handler E t)
    = table_after (Part000.processOutages E Part000.PLANNED
        (table_after (Part000.processOutages E Part000.EMERGENCY t))).
Proof.
  rewrite handler_runs_both. unfold trace, table_after. cbn [fst snd].
  generalize (Part000.processOutages E Part000.PLANNED
                (snd (fst (Part000.processOutages E Part000.EMERGENCY t)))).
  generalize (Part000.processOutages E Part000.EMERGENCY t).
  intros A B. unfold posts, puts. simpl.
  rewrite !List.filter_app. simpl. by rewrite !app_nil_r.
Qed.

(** X1. Every item the program writes to the table carries a report that is
    not the empty string, in both variants: the write is reached only
    after the test on the extracted text. *)
Theorem store_never_gets_empty_report E t :
  Forall (fun e => ∃ key it, e = PutItem Part000.DYNAMO_TABLE_NAME key it
                             ∧ outageData it ≠ [])
    (puts (trace (Part000.handler E t)))
  ∧ Forall (fun e => ∃ it, e = PutItem Index.DYNAMO_TABLE_NAME
                                 Index.DYNAMO_PRIMARY_KEY it
                           ∧ outageData it ≠ [])
      (puts (trace (Index.handler E t))).
Proof.
  split.
  - destruct (handler_obs E t) as (_ & -> & _).
    apply Forall_app; split; apply List.Forall_forall; intros e He;
      destruct (writes_are_nonempty _ _ _ _ He) as (it & -> & Hit);
      by eexists _, it.
  - apply List.Forall_forall. intros e He.
    exact (index_writes_are_nonempty E t e He).
Qed.

Lemma table_after_run E c t :
  table_after (Part000.processOutages E c t) = t
  ∨ ∃ html, http_get E (Part000.url c) = resolved html
      ∧ value (extract E c html) ≠ []
      ∧ put_fault E (Part000.dbKey c) = None
      ∧ table_after (Part000.processOutages E c t)
        = <[Part000.dbKey c := Item (value (extract E c html))
                                    (now E (Part000.dbKey c))]> t.
Proof.
  destruct (processOutages_cases E c t)
    as [(_ & _ & T & _)|[(html & _ & _ & _ & _ & _ & _ & T)
       |(html & Hf & _ & Hv & _ & _ & _ & _ & T)]]; try by left.
  rewrite save_table in T.
  destruct (put_fault E (Part000.dbKey c)) eqn:Hu; [by left|].
  right. by exists html.
Qed.

(** X2. A category's run changes the table in one way only: by a served
    write of its own, non-empty report under its own key, stamped with the
    clock.  Otherwise the table is as before.  No key is ever removed. *)
Theorem table_changes_by_served_write_only E c t :
  let r := Part000.processOutages E c t in
  (table_after r = t
   ∨ ∃ html, http_get E (Part000.url c) = resolved html
       ∧ value (extract E c html) ≠ []
       ∧ put_fault E (Part000.dbKey c) = None
       ∧ table_after r
         = <[Part000.dbKey c := Item (value (extract E c html))
                                     (now E (Part000.dbKey c))]> t)
  ∧ ∀ key, is_Some (t !! key) → is_Some (table_after r !! key).
Proof.
  intros r. pose proof (table_after_run E c t) as H. fold r in H.
  split; [exact H|].
  intros key Hk. destruct H as [->|(html & _ & _ & _ & ->)]; [done|].
  destruct (decide (Part000.dbKey c = key)) as [->|Hne].
  - rewrite lookup_insert_eq. by eexists.
  - by rewrite lookup_insert_ne.
Qed.

Lemma run_frame E c t key :
  key ≠ Part000.dbKey c →
  table_after (Part000.processOutages E c t) !! key = t !! key.
Proof.
  intros Hk.
  destruct (table_after_run E c t) as [->|(html & _ & _ & _ & ->)]; [done|].
  by rewrite lookup_insert_ne.
Qed.

Lemma db_keys_differ :
  Part000.dbKey Part000.EMERGENCY ≠ Part000.dbKey Part000.PLANNED.
Proof. by vm_compute. Qed.

(** X3. The two categories keep to their own keys.  A category's run leaves
    the item of every other key as it was; the two keys differ; so after
    the handler the emergency item is as the emergency run left it, and the
    items of all other keys are as before the invocation. *)
Theorem categories_keep_to_their_keys :
  (∀ E c t key,
     key ≠ Part000.dbKey c →
     table_after (Part000.processOutages E c t) !! key = t !! key)
  ∧ Part000.dbKey Part000.EMERGENCY ≠ Part000.dbKey Part000.PLANNED
  ∧ (∀ E t,
     table_after (Part000.handler E t) !! Part000.dbKey Part000.EMERGENCY
     = table_after (Part000.processOutages E Part000.EMERGENCY t)
       !! Part000.dbKey Part000.EMERGENCY)
  ∧ (∀ E t key,
     key ≠ Part000.dbKey Part000.EMERGENCY →
     key ≠ Part000.dbKey Part000.PLANNED →
     table_after (Part000.handler E t) !! key = t !! key).
Proof.
  split; [exact run_frame|]. split; [exact db_keys_differ|]. split.
  - intros E t. destruct (handler_obs E t) as (_ & _ & ->).
    apply run_frame, db_keys_differ.
  - intros E t key He Hp. destruct (handler_obs E t) as (_ & _ & ->).
    by rewrite !run_frame.
Qed.

Lemma categories_keep_to_their_keys_witness :
  table_after (Part000.processOutages Sample.calm Part000.PLANNED ∅)
    !! Part000.dbKey Part000.EMERGENCY = None
  ∧ table_after (Part000.handler Sample.calm ∅) !! lit "another key" = None.
Proof.
  destruct categories_keep_to_their_keys as (F & D & _ & H).
  split.
  - by rewrite (F Sample.calm Part000.PLANNED ∅ _ D).
  - rewrite (H Sample.calm ∅ (lit "another key")); by vm_compute.
Defined.

(** X4. A category's run sends at most one Telegram request, one store write
    and one store read.  A request that is sent carries the report the run
    then hands to the store write, and that report is not empty; a store
    write happens only after the store read of the same key. *)
Theorem notification_goes_with_write E c t :
  let tr := trace (Part000.processOutages E c t) in
  (length (posts tr) ≤ 1 ∧ length (puts tr) ≤ 1 ∧ length (gets tr) ≤ 1)%nat
  ∧ (posts tr ≠ [] →
     ∃ text, text ≠ []
       ∧ posts tr = [telegram_post E (message c text)]
       ∧ puts tr = [PutItem Part000.DYNAMO_TABLE_NAME (Part000.dbKey c)
                      (Item text (now E (Part000.dbKey c)))])
  ∧ (puts tr ≠ [] →
     gets tr = [GetItem Part000.DYNAMO_TABLE_NAME (Part000.dbKey c)]).
Proof.
  intros tr.
  destruct (processOutages_cases E c t)
    as [([P U] & G & _)|[(html & _ & _ & _ & _ & [P U] & G & _)
       |(html & _ & _ & Hv & _ & P & U & G & _)]]; fold tr in P, U, G.
  - rewrite P, U, G. simpl. repeat split; try lia; done.
  - rewrite P, U, G. simpl. repeat split; try lia; done.
  - rewrite send_posts in P. rewrite P, U, G.
    destruct (unset (TELEGRAM_BOT_TOKEN E) || unset (TELEGRAM_CHAT_ID E));
      simpl; repeat split; try lia; try done.
    intros _. by eexists.
Qed.

Lemma notification_goes_with_write_witness :
  ∃ text, text ≠ []
    ∧ puts (trace (Part000.processOutages Sample.calm Part000.PLANNED ∅))
      = [PutItem Part000.DYNAMO_TABLE_NAME (Part000.dbKey Part000.PLANNED)
           (Item text (lit "2025-07-21T06:00:00.000Z"))].
Proof.
  destruct (notification_goes_with_write Sample.calm Part000.PLANNED ∅)
    as (_ & N & _).
  destruct N as (text & Ht & _ & U); [by vm_compute|].
  by exists text.
Defined.

Lemma up_to_date_quiet E c t :
  up_to_date E c t → get_fault E (Part000.dbKey c) = None →
  quiet (trace (Part000.processOutages E c t))
  ∧ table_after (Part000.processOutages E c t) = t.
Proof.
  intros Hup Hg.
  destruct (processOutages_cases E c t)
    as [(Q & _ & T & _)|[(html & _ & _ & _ & _ & Q & _ & T)
       |(html & Hf & Hne & Hv & Heq & _)]]; try done.
  exfalso. unfold previous in Heq. rewrite Hg in Heq.
  rewrite (Hup html Hf Hne Hv) in Heq. simpl in Heq.
  by rewrite str_eqb_refl in Heq.
Qed.

Lemma fetch_fails_not E u html :
  fetch_fails E u → http_get E u = resolved html → html ≠ [] → False.
Proof. intros [[msg H]|H] Hf Hne; congruence. Qed.

Lemma run_brings_up_to_date E1 E2 c t :
  http_get E1 (Part000.url c) = http_get E2 (Part000.url c) →
  (∀ html, cheerio_load E1 html = cheerio_load E2 html) →
  put_fault E1 (Part000.dbKey c) = None →
  up_to_date E2 c (table_after (Part000.processOutages E1 c t)).
Proof.
  intros Hget Hpage Hu html Hf2 Hne Hv.
  rewrite <-Hget in Hf2.
  rewrite <-(extract_same_page E1 E2 c html (Hpage html)) in *.
  destruct (processOutages_cases E1 c t)
    as [(_ & _ & _ & [F|(h & Hf & _ & Hv0)])
       |[(h & Hf & _ & _ & Hp & _ & _ & T)
       |(h & Hf & _ & _ & _ & _ & _ & _ & T)]].
  - destruct (fetch_fails_not _ _ _ F Hf2 Hne).
  - congruence.
  - rewrite T. assert (h = html) as -> by congruence.
    unfold previous in Hp. destruct (get_fault E1 _); congruence.
  - rewrite T, save_table, Hu. assert (h = html) as -> by congruence.
    apply stored_insert.
Qed.

Lemma up_to_date_frame E c t t' :
  up_to_date E c t → t' !! Part000.dbKey c = t !! Part000.dbKey c →
  up_to_date E c t'.
Proof.
  intros Hup Hk html Hf Hne Hv. rewrite <-(Hup html Hf Hne Hv).
  unfold stored. by rewrite Hk.
Qed.

(** X5. Two invocations of the two-category handler in succession on the
    same pages, the writes of the first and the reads of the second being
    served: whatever the first invocation found and did, the second sends
    no notification, writes nothing and leaves the table as the first left
    it. *)
Theorem second_invocation_is_quiet E1 E2 t :
  (∀ u, http_get E1 u = http_get E2 u) →
  (∀ html, cheerio_load E1 html = cheerio_load E2 html) →
  (∀ key, put_fault E1 key = None) →
  (∀ key, get_fault E2 key = None) →
  let r1 := Part000.handler E1 t in
  let r2 := Part000.handler E2 (table_after r1) in
  quiet (trace r2) ∧ table_after r2 = table_after r1.
Proof.
  intros Hget Hpage Hu Hg r1 r2.
  destruct (handler_obs E1 t) as (_ & _ & T1). fold r1 in T1.
  set (te := table_after (Part000.processOutages E1 Part000.EMERGENCY t)) in *.
  assert (Ue : up_to_date E2 Part000.EMERGENCY (table_after r1)).
  { apply (up_to_date_frame _ _ te).
    - apply run_brings_up_to_date; auto.
    - rewrite T1. apply run_frame, db_keys_differ. }
  assert (Up : up_to_date E2 Part000.PLANNED (table_after r1)).
  { rewrite T1. apply run_brings_up_to_date; auto. }
  destruct (up_to_date_quiet _ _ _ Ue (Hg _)) as ([Pe Ue'] & Te).
  rewrite <-Te in Up.
  destruct (up_to_date_quiet _ _ _ Up (Hg _)) as ([Pp Up'] & Tp).
  destruct (handler_obs E2 (table_after r1)) as (P & U & T).
  fold r2 in P, U, T. unfold quiet.
  rewrite P, U, T, Pe, Ue', Pp, Up', Tp, Te. done.
Qed.

Lemma second_invocation_is_quiet_witness :
  let r1 := Part000.handler Sample.calm ∅ in
  let r2 := Part000.handler Sample.calm (table_after r1) in
  quiet (trace r2) ∧ table_after r2 = table_after r1.
Proof. by apply (second_invocation_is_quiet Sample.calm Sample.calm ∅). Defined.

Lemma index_up_to_date_quiet E t :
  index_up_to_date E t → get_fault E Index.DYNAMO_PRIMARY_KEY = None →
  quiet (trace (Index.handler E t)) ∧ table_after (Index.handler E t) = t.
Proof.
  intros Hup Hg.
  destruct (index_handler_cases E t)
    as [(_ & _ & Q & _ & T)|[(html & _ & _ & _ & _ & Q & _ & T)
       |[(html & _ & _ & _ & _ & _ & Q & _ & T)
       |(html & Hf & Hne & Hv & Heq & _)]]]; try done.
  exfalso. unfold previous in Heq. rewrite Hg in Heq.
  rewrite (Hup html Hf Hne Hv) in Heq. simpl in Heq.
  by rewrite str_eqb_refl in Heq.
Qed.

Lemma index_run_brings_up_to_date E1 E2 t :
  http_get E1 Index.URL = http_get E2 Index.URL →
  (∀ html, cheerio_load E1 html = cheerio_load E2 html) →
  put_fault E1 Index.DYNAMO_PRIMARY_KEY = None →
  index_up_to_date E2 (table_after (Index.handler E1 t)).
Proof.
  intros Hget Hpage Hu html Hf2 Hne Hv.
  rewrite <-Hget in Hf2.
  rewrite <-(index_parse_same_page E1 E2 html (Hpage html)) in *.
  destruct (index_handler_cases E1 t)
    as [(F & _)|[(h & Hf & _ & Hv0 & _)
       |[(h & Hf & _ & _ & Hp & _ & _ & _ & T)
       |(h & Hf & _ & _ & _ & _ & _ & _ & _ & T)]]].
  - destruct (fetch_fails_not _ _ _ F Hf2 Hne).
  - congruence.
  - rewrite T. assert (h = html) as -> by congruence.
    unfold previous in Hp. destruct (get_fault E1 _); congruence.
  - rewrite T, index_save_table, Hu. assert (h = html) as -> by congruence.
    apply stored_insert.
Qed.

(** X6. Two invocations of the single-category handler in succession on the
    same page, the write of the first and the read of the second being
    served: whatever the first invocation found and did, the second sends
    no notification, writes nothing, leaves the table as the first left it
    and does not answer that new data was found. *)
Theorem index_second_invocation_is_quiet E1 E2 t :
  http_get E1 Index.URL = http_get E2 Index.URL →
  (∀ html, cheerio_load E1 html = cheerio_load E2 html) →
  put_fault E1 Index.DYNAMO_PRIMARY_KEY = None →
  get_fault E2 Index.DYNAMO_PRIMARY_KEY = None →
  let r1 := Index.handler E1 t in
  let r2 := Index.handler E2 (table_after r1) in
  quiet (trace r2) ∧ table_after r2 = table_after r1
  ∧ newOutages (returned r2) = None.
Proof.
  intros Hget Hpage Hu Hg r1 r2.
  pose proof (index_run_brings_up_to_date E1 E2 t Hget Hpage Hu) as Hup.
  fold r1 in Hup.
  destruct (index_up_to_date_quiet _ _ Hup Hg) as (Q & T). fold r2 in Q, T.
  split; [exact Q|]. split; [exact T|]. subst r2.
  destruct (index_handler_cases E2 (table_after r1))
    as [(_ & R & _)|[(html & _ & _ & _ & R & _)
       |[(html & _ & _ & _ & _ & R & _)
       |(html & _ & _ & _ & _ & _ & _ & U & _)]]];
    try by rewrite R.
  destruct Q as [_ Q]. by rewrite Q in U.
Qed.

Lemma index_second_invocation_is_quiet_witness :
  let r1 := Index.handler Sample.calm ∅ in
  let r2 := Index.handler Sample.calm (table_after r1) in
  quiet (trace r2) ∧ table_after r2 = table_after r1
  ∧ newOutages (returned r2) = None.
Proof. by apply (index_second_invocation_is_quiet Sample.calm Sample.calm ∅). Defined.

(** X7. Telegram has no say in what reaches the store.  With other
    credentials, or none, and with other answers of the Telegram endpoint,
    a category's run reads and writes the store in the same way and leaves
    the same table. *)
Theorem telegram_never_affects_store E c t token chat post :
  let r := Part000.processOutages E c t in
  let r' := Part000.processOutages (other_telegram E token chat post) c t in
  table_after r' = table_after r
  ∧ puts (trace r') = puts (trace r)
  ∧ gets (trace r') = gets (trace r).
Proof.
  intros r r'. set (E' := other_telegram E token chat post) in *.
  destruct (http_get E (Part000.url c)) as [html|msg] eqn:Hf.
  2: { unfold r, r'.
       by rewrite (run_fetch_rejected E c t msg Hf),
         (run_fetch_rejected E' c t msg Hf). }
  destruct (decide (html = [])) as [->|Hne].
  { unfold r, r'.
    by rewrite (run_fetch_empty E c t Hf), (run_fetch_empty E' c t Hf). }
  destruct (decide (value (extract E c html) = [])) as [Hv|Hv].
  { destruct (no_data_obs E c t html Hf Hne Hv) as (_ & _ & [_ U] & G & T).
    destruct (no_data_obs E' c t html Hf Hne Hv) as (_ & _ & [_ U'] & G' & T').
    fold r in U, G, T. fold r' in U', G', T'. by rewrite U, G, T, U', G', T'. }
  destruct (strict_eq (value (extract E c html))
              (previous E t (Part000.dbKey c))) eqn:Heq.
  - apply strict_eq_previous in Heq.
    pose proof (run_unchanged E c t html Hf Hne Hv Heq) as R.
    pose proof (run_unchanged E' c t html Hf Hne Hv Heq) as R'.
    fold r in R. fold r' in R'. by rewrite R, R'.
  - destruct (changed_obs E c t html Hf Hne Hv Heq) as (_ & _ & U & G & T).
    destruct (changed_obs E' c t html Hf Hne Hv Heq) as (_ & _ & U' & G' & T').
    fold r in U, G, T. fold r' in U', G', T'.
    rewrite U, G, T, U', G', T'. by rewrite !save_table.
Qed.

(** X8. The single-category handler answers with status 500 exactly when
    the fetch of the page fails, and with status 200 otherwise.  Its answer
    does not depend on Telegram or on the store write: with other
    credentials, other answers of the Telegram endpoint and other faults of
    the write, status, body and [newOutages] are the same. *)
Theorem index_answer_reflects_fetch_only E t :
  (statusCode (returned (Index.handler E t)) = 500 ↔ fetch_fails E Index.URL)
  ∧ (statusCode (returned (Index.handler E t)) = 500
     ∨ statusCode (returned (Index.handler E t)) = 200)
  ∧ ∀ token chat post put,
      returned (Index.handler
                  (other_telegram_and_writes E token chat post put) t)
      = returned (Index.handler E t).
Proof.
  split; [|split].
  - destruct (index_handler_cases E t)
      as [(F & R & _)|[(html & Hf & Hne & _ & R & _)
         |[(html & Hf & Hne & _ & _ & R & _)
         |(html & Hf & Hne & _ & _ & R & _)]]]; rewrite R; simpl;
      split; try done; intros F; destruct (fetch_fails_not _ _ _ F Hf Hne).
  - destruct (index_handler_cases E t)
      as [(F & R & _)|[(html & Hf & Hne & _ & R & _)
         |[(html & Hf & Hne & _ & _ & R & _)
         |(html & Hf & Hne & _ & _ & R & _)]]]; rewrite R; simpl; auto.
  - intros token chat post put.
    set (E' := other_telegram_and_writes E token chat post put).
    destruct (http_get E Index.URL) as [html|msg] eqn:Hf.
    2: { by rewrite (index_run_fetch_rejected E t msg Hf),
           (index_run_fetch_rejected E' t msg Hf). }
    destruct (decide (html = [])) as [->|Hne].
    { by rewrite (index_run_fetch_empty E t Hf),
        (index_run_fetch_empty E' t Hf). }
    destruct (decide (value (Index.parseOutages E html) = [])) as [Hv|Hv].
    { destruct (index_no_data_obs E t html Hf Hne Hv) as (R & _).
      destruct (index_no_data_obs E' t html Hf Hne Hv) as (R' & _).
      by rewrite R, R'. }
    destruct (strict_eq (value (Index.parseOutages E html))
                (previous E t Index.DYNAMO_PRIMARY_KEY)) eqn:Heq.
    + apply strict_eq_previous in Heq.
      destruct (index_unchanged_obs E t html Hf Hne Hv Heq) as (R & _).
      destruct (index_unchanged_obs E' t html Hf Hne Hv Heq) as (R' & _).
      by rewrite R, R'.
    + destruct (index_changed_obs E t html Hf Hne Hv Heq) as (R & _).
      destruct (index_changed_obs E' t html Hf Hne Hv Heq) as (R' & _).
      by rewrite R, R'.
Qed.



(** ** The parsers *)

Lemma last_match {A} (P : A → bool) (l : list A) :
  Forall (fun x => P x = false) l
  ∨ ∃ pre x post, l = pre ++ x :: post ∧ P x = true
                  ∧ Forall (fun y => P y = false) post.
Proof.
  induction l as [|a l [IH|(pre & x & post & -> & Hx & Hpost)]].
  - left. constructor.
  - destruct (P a) eqn:Ha.
    + right. by exists [], a, l.
    + left. by constructor.
  - right. by exists (a :: pre), x, post.
Qed.

Lemma last_match_unique {A} (P : A → bool) pre x post pre' x' post' :
  pre ++ x :: post = pre' ++ x' :: post' →
  P x = true → P x' = true →
  Forall (fun y => P y = false) post → Forall (fun y => P y = false) post' →
  x = x' ∧ post = post'.
Proof.
  intros H Hx Hx' Hpost Hpost'. revert pre' H.
  induction pre as [|a pre IH]; intros [|a' pre'] H; simpl in H.
  - by injection H as -> ->.
  - injection H as Ha Hp. subst. apply Forall_app in Hpost as [_ Hp].
    apply Forall_cons in Hp as [Hp _]. congruence.
  - injection H as Ha Hp. subst. apply Forall_app in Hpost' as [_ Hp].
    apply Forall_cons in Hp as [Hp _]. congruence.
  - injection H as _ H. by apply (IH pre').
Qed.

Lemma district_callback_forgets output d :
  startsWith (trim (h3 d)) Part000.DISTRICT_NAME = true →
  value (Part000.district_callback output d)
  = value (Part000.district_callback [] d)
  ∧ value (Index.district_callback output d)
    = value (Index.district_callback [] d).
Proof.
  intros Hm. rewrite !district_callback_value, !index_district_callback_value.
  change Index.DISTRICT_NAME with Part000.DISTRICT_NAME. by rewrite Hm.
Qed.

(** X10. When several districts of the document carry the target name, the
    report is that of the last one alone, in both variants: the districts
    before it, whatever their rows, leave nothing in the report. *)
Theorem last_district_of_the_name_wins E html pre d post :
  dzielnica (cheerio_load E html) = pre ++ d :: post →
  startsWith (trim (h3 d)) Part000.DISTRICT_NAME = true →
  Forall (fun d' => startsWith (trim (h3 d')) Part000.DISTRICT_NAME = false)
    post →
  value (Part000.parseOutages E html) = value (Part000.district_callback [] d)
  ∧ value (Index.parseOutages E html) = value (Index.district_callback [] d).
Proof.
  intros Hd Hm Hpost.
  rewrite parseOutages_value, index_parseOutages_value, Hd, !fold_left_app.
  simpl. rewrite (Part000Districts.other_districts _ post Hpost).
  rewrite (index_other_districts _ post Hpost).
  destruct (district_callback_forgets
              (fold_left (fun output d0 => value (Part000.district_callback output d0))
                 pre []) d Hm) as [-> _].
  by destruct (district_callback_forgets
              (fold_left (fun output d0 => value (Index.district_callback output d0))
                 pre []) d Hm) as [_ ->].
Qed.

Lemma last_district_of_the_name_wins_witness :
  value (Part000.parseOutages
           (Sample.outside
              (Sample.page_of [Sample.ursus [Sample.row1]; Sample.bemowo;
                               Sample.ursus [Sample.row2]; Sample.bemowo] None)
              None None (resolved tt)) (lit "<html>"))
  = value (Part000.district_callback [] (Sample.ursus [Sample.row2])).
Proof.
  refine (proj1 (last_district_of_the_name_wins _ (lit "<html>")
            [Sample.ursus [Sample.row1]; Sample.bemowo]
            (Sample.ursus [Sample.row2]) [Sample.bemowo] _ _ _)).
  - reflexivity.
  - by vm_compute.
  - constructor; [by vm_compute | constructor].
Defined.

Lemma planned_records_nonempty rows :
  Forall (fun entry => entry ≠ []) (flat_map planned_record rows).
Proof.
  induction rows as [|cells rows IH]; simpl; [constructor|].
  apply Forall_app; split; [|exact IH].
  destruct (Nat.ltb_spec 4 (length cells)) as [Hc|Hc].
  - destruct (planned_record_long cells Hc) as (e & -> & He).
    by constructor.
  - rewrite planned_record_short; [constructor | lia].
Qed.

Lemma emergency_records_nonempty rows :
  Forall (fun entry => entry ≠ []) (flat_map emergency_record rows).
Proof.
  induction rows as [|cells rows IH]; simpl; [constructor|].
  apply Forall_app; split; [|exact IH].
  destruct (Nat.leb_spec 5 (length cells)) as [Hc|Hc].
  - destruct (emergency_record_long cells Hc) as (e & -> & He).
    by constructor.
  - rewrite emergency_record_short; [constructor | lia].
Qed.

Lemma no_planned_record_short rows :
  flat_map planned_record rows = [] →
  Forall (fun cells : row => (length cells ≤ 4)%nat) rows.
Proof.
  induction rows as [|cells rows IH]; simpl; [constructor|].
  intros [H1 H2]%app_eq_nil. constructor; [|by apply IH].
  destruct (Nat.ltb_spec 4 (length cells)) as [Hc|Hc]; [|lia].
  destruct (planned_record_long cells Hc) as (e & He & _). congruence.
Qed.

Lemma no_emergency_record_short rows :
  flat_map emergency_record rows = [] →
  Forall (fun cells : row => (length cells < 5)%nat) rows.
Proof.
  induction rows as [|cells rows IH]; simpl; [constructor|].
  intros [H1 H2]%app_eq_nil. constructor; [|by apply IH].
  destruct (Nat.leb_spec 5 (length cells)) as [Hc|Hc]; [|lia].
  destruct (emergency_record_long cells Hc) as (e & He & _). congruence.
Qed.

(** X11. The planned parser of the two-category variant returns the empty
    string in two cases and no other: no district of the document carries
    the target name, or the last district that does has no row of more than
    4 cells. *)
Theorem planned_report_empty_iff E html :
  value (Part000.parseOutages E html) = []
  ↔ Forall (fun d => startsWith (trim (h3 d)) Part000.DISTRICT_NAME = false)
      (dzielnica (cheerio_load E html))
    ∨ ∃ pre d post,
        dzielnica (cheerio_load E html) = pre ++ d :: post
        ∧ startsWith (trim (h3 d)) Part000.DISTRICT_NAME = true
        ∧ Forall (fun d' =>
                    startsWith (trim (h3 d')) Part000.DISTRICT_NAME = false)
            post
        ∧ Forall (fun cells : row => (length cells ≤ 4)%nat) (awarie_rows d).
Proof.
  rewrite parseOutages_value.
  destruct (last_match
              (fun d => startsWith (trim (h3 d)) Part000.DISTRICT_NAME)
              (dzielnica (cheerio_load E html)))
    as [Hall|(pre & d & post & Hd & Hm & Hpost)].
  - split; [by left|]. intros _. by apply Part000Districts.other_districts.
  - rewrite Hd, fold_left_app. simpl.
    rewrite (Part000Districts.other_districts _ post Hpost).
    rewrite district_callback_value, Hm. split.
    + intros Hj. right. exists pre, d, post. repeat split; try done.
      apply no_planned_record_short.
      apply join_sort_empty; [apply planned_records_nonempty | exact Hj].
    + intros [Hall|(pre' & d' & post' & Hd' & Hm' & Hpost' & Hrows)].
      * apply Forall_app in Hall as [_ Hall].
        apply Forall_cons in Hall as [Hd0 _]. congruence.
      * destruct (last_match_unique _ _ _ _ _ _ _ Hd' Hm Hm' Hpost Hpost')
          as [-> _].
        by destruct (short_rows_no_record _ Hrows) as [-> _].
Qed.

(** X12. The emergency parser returns the empty string in two cases and no
    other: the document has no [#awarie] table, or the table has no row of
    at least 5 cells. *)
Theorem emergency_report_empty_iff E html :
  value (Part000.parseEmergencyOutages E html) = []
  ↔ match awarie (cheerio_load E html) with
    | Some rows => Forall (fun cells : row => (length cells < 5)%nat) rows
    | None => True
    end.
Proof.
  rewrite parseEmergencyOutages_value.
  destruct (awarie (cheerio_load E html)) as [rows|]; [|done]. split.
  - intros Hj. apply no_emergency_record_short.
    apply join_sort_empty; [apply emergency_records_nonempty | exact Hj].
  - intros Hr. by rewrite short_rows_no_emergency_record.
Qed.

Lemma join_cons_prefix sep x l : ∃ rest, join sep (x :: l) = x ++ rest.
Proof. destruct l; simpl; [exists []; by rewrite app_nil_r | by eexists]. Qed.

(** X13. The parser of the single-category variant returns the empty string
    exactly when no district of the document carries the target name.  In
    every other case its report begins with the heading
    "Wyłączenia planowane:" and two line feeds. *)
Theorem index_report_shape E html :
  (value (Index.parseOutages E html) = []
   ↔ Forall (fun d => startsWith (trim (h3 d)) Index.DISTRICT_NAME = false)
       (dzielnica (cheerio_load E html)))
  ∧ (value (Index.parseOutages E html) = []
     ∨ ∃ rest, value (Index.parseOutages E html)
               = lit "Wyłączenia planowane:" ++ nl ++ nl ++ rest).
Proof.
  rewrite index_parseOutages_value.
  destruct (last_match
              (fun d => startsWith (trim (h3 d)) Index.DISTRICT_NAME)
              (dzielnica (cheerio_load E html)))
    as [Hall|(pre & d & post & Hd & Hm & Hpost)].
  - rewrite (index_other_districts _ _ Hall). split; [done | by left].
  - rewrite Hd, fold_left_app. simpl.
    rewrite (index_other_districts _ post Hpost).
    rewrite index_district_callback_value, Hm.
    destruct (join_cons_prefix nl Index.heading
                (flat_map index_planned_record (awarie_rows d)))
      as (rest & ->).
    split; [split|].
    + intros H. apply app_eq_nil in H as [H _].
      destruct (heading_nonempty H).
    + intros Hall. apply Forall_app in Hall as [_ Hall].
      apply Forall_cons in Hall as [Hd0 _]. congruence.
    + right. exists rest. unfold Index.heading. by rewrite <-!app_assoc.
Qed.

(** ** Sub-addresses *)

Lemma last_rev {A} (l : list A) : last (rev l) = head l.
Proof. destruct l as [|a l]; [done|]. simpl. apply last_snoc. Qed.

Lemma head_rev {A} (l : list A) : head (rev l) = last l.
Proof. by rewrite <-(rev_involutive l) at 2; rewrite last_rev. Qed.

Lemma trimStart_head s c : head (trimStart s) = Some c → is_ws c = false.
Proof.
  induction s as [|x s IH]; simpl; [done|].
  destruct (is_ws x) eqn:Hx; [exact IH|]. simpl. by intros [= <-].
Qed.

Lemma trimStart_suffix s : ∃ p, s = p ++ trimStart s.
Proof.
  induction s as [|x s [p IH]]; simpl; [by exists []|].
  destruct (is_ws x); [|by exists []].
  exists (x :: p). simpl. by rewrite <-IH.
Qed.

(** [trim] leaves no white space at either end. *)
Lemma trim_ends s c :
  (head (trim s) = Some c → is_ws c = false)
  ∧ (last (trim s) = Some c → is_ws c = false).
Proof.
  unfold trim. rewrite head_rev, last_rev. split.
  - intros Hl.
    destruct (trimStart_suffix (rev (trimStart s))) as [p Hp].
    apply (trimStart_head s). rewrite <-last_rev, Hp, last_app.
    by rewrite Hl.
  - apply trimStart_head.
Qed.

Lemma filter_perm {A} (p : A → bool) l l' :
  l ≡ₚ l' → List.filter p l ≡ₚ List.filter p l'.
Proof.
  induction 1 as [|x l l' _ IH|x y l|l l' l'' _ IH _ IH']; simpl.
  - done.
  - destruct (p x); by rewrite IH.
  - destruct (p x), (p y); try done. apply perm_swap.
  - by rewrite IH.
Qed.

(** X14. The addresses listed under an entry come in sorted order; each is
    a piece of the [.zbior] markup between two [<br>], trimmed; none is
    empty and none begins or ends with white space. *)
Theorem addresses_are_clean html :
  Sorted str_le (addresses_of html)
  ∧ ∀ address, In address (addresses_of html) →
      address ≠ []
      ∧ (∃ piece, In piece (split html (lit "<br>")) ∧ address = trim piece)
      ∧ (∀ c, head address = Some c → is_ws c = false)
      ∧ (∀ c, last address = Some c → is_ws c = false).
Proof.
  split; [apply sort_sorted|]. intros address Ha.
  unfold addresses_of in Ha.
  apply list_elem_of_In in Ha. rewrite sort_permutation in Ha.
  apply list_elem_of_In, filter_In in Ha as [Hm Hne].
  apply in_map_iff in Hm as (piece & <- & Hpiece).
  split; [|split; [by exists piece|]].
  - by destruct (trim piece).
  - split; intros c; apply trim_ends.
Qed.

Lemma addresses_are_clean_witness :
  lit "B" ≠ []
  ∧ ∃ piece, In piece (split (lit " B <br>A<br> <br>") (lit "<br>"))
             ∧ lit "B" = trim piece.
Proof.
  destruct (addresses_are_clean (lit " B <br>A<br> <br>")) as [_ H].
  destruct (H (lit "B")) as (H1 & H2 & _); [vm_compute; auto|].
  by split.
Defined.

(** X15. The addresses of an entry do not depend on the order in which the
    pieces stand in the [.zbior] markup. *)
Theorem addresses_ignore_piece_order html html' :
  split html (lit "<br>") ≡ₚ split html' (lit "<br>") →
  addresses_of html = addresses_of html'.
Proof.
  intros H. unfold addresses_of. apply sort_perm, filter_perm.
  by apply Permutation_map.
Qed.

Lemma addresses_ignore_piece_order_witness :
  addresses_of (lit "B<br>A<br>C") = addresses_of (lit "C<br>B<br>A").
Proof.
  apply addresses_ignore_piece_order.
  assert (S1 : split (lit "B<br>A<br>C") (lit "<br>")
               = [lit "B"; lit "A"; lit "C"]) by by vm_compute.
  assert (S2 : split (lit "C<br>B<br>A") (lit "<br>")
               = [lit "C"; lit "B"; lit "A"]) by by vm_compute.
  rewrite S1, S2.
  apply perm_trans with [lit "B"; lit "C"; lit "A"].
  - apply perm_skip, perm_swap.
  - apply perm_swap.
Defined.

(** ** The store adapter *)

(** X16. What [getPreviousOutages] returns.  After a served
    [saveNewOutages] of a report under a key, a served read of that key
    returns the report; after a rejected one it returns what it returned
    before.  A served read of a key without item returns the empty string;
    a rejected read returns [null].  A write under one key does not change
    what is read under another, and a read never changes the table. *)
Theorem saved_report_is_read_back :
  (∀ E E' key text t,
     put_fault E key = None → get_fault E' key = None →
     returned (Part000.getPreviousOutages E' key
                 (table_after (Part000.saveNewOutages E key text t)))
     = Some text)
  ∧ (∀ E E' key text t msg,
     put_fault E key = Some msg →
     returned (Part000.getPreviousOutages E' key
                 (table_after (Part000.saveNewOutages E key text t)))
     = returned (Part000.getPreviousOutages E' key t))
  ∧ (∀ E key t,
     get_fault E key = None → t !! key = None →
     returned (Part000.getPreviousOutages E key t) = Some [])
  ∧ (∀ E key t msg,
     get_fault E key = Some msg →
     returned (Part000.getPreviousOutages E key t) = None)
  ∧ (∀ E E' key key' text t,
     key ≠ key' →
     returned (Part000.getPreviousOutages E' key'
                 (table_after (Part000.saveNewOutages E key text t)))
     = returned (Part000.getPreviousOutages E' key' t))
  ∧ (∀ E key t, table_after (Part000.getPreviousOutages E key t) = t).
Proof.
  assert (G : ∀ E key t,
    returned (Part000.getPreviousOutages E key t) = previous E t key
    ∧ table_after (Part000.getPreviousOutages E key t) = t).
  { intros E key t. unfold previous, stored. unfold_io.
    by destruct (get_fault E key). }
  repeat split.
  - intros E E' key text t Hu Hg.
    rewrite (proj1 (G _ _ _)). by apply previous_after_save.
  - intros E E' key text t msg Hu.
    by rewrite (save_rejected E key text t msg Hu).
  - intros E key t Hg Hk. rewrite (proj1 (G _ _ _)).
    unfold previous, stored. by rewrite Hg, Hk.
  - intros E key t msg Hg. rewrite (proj1 (G _ _ _)).
    unfold previous. by rewrite Hg.
  - intros E E' key key' text t Hne. rewrite !(proj1 (G _ _ _)), save_table.
    destruct (put_fault E key); [done|]. unfold previous.
    by rewrite stored_insert_ne.
  - intros E key t. apply G.
Qed.

Lemma saved_report_is_read_back_witness :
  returned (Part000.getPreviousOutages Sample.calm (lit "k")
              (table_after (Part000.saveNewOutages Sample.calm (lit "k")
                              (lit "report") ∅)))
  = Some (lit "report")
  ∧ returned (Part000.getPreviousOutages Sample.calm (lit "k") ∅) = Some []
  ∧ returned (Part000.getPreviousOutages Sample.read_down (lit "k") ∅) = None.
Proof.
  destruct saved_report_is_read_back as (A & _ & B & C & _).
  split; [|split].
  - by apply A.
  - by apply B.
  - by apply (C _ _ _ (lit "read timed out")).
Defined.

(** ** Requests for the pages *)

Lemma logs_no_fetch l :
  Forall (fun e => is_log e = true) l → fetches l = [].
Proof.
  induction 1 as [|e l He _ IH]; [done|]. by destruct e.
Qed.

Lemma run_fetches E c t :
  fetches (trace (Part000.processOutages E c t)) = [HttpGet (Part000.url c)].
Proof.
  assert (L : ∀ html, fetches (console (extract E c html)) = []).
  { intros html. apply logs_no_fetch, extract_logs. }
  destruct (http_get E (Part000.url c)) as [html|msg] eqn:Hf.
  2: { by rewrite (run_fetch_rejected E c t msg Hf). }
  destruct (decide (html = [])) as [->|Hne].
  { by rewrite (run_fetch_empty E c t Hf). }
  specialize (L html).
  destruct (decide (value (extract E c html) = [])) as [Hv|Hv].
  { rewrite (run_no_data E c t html Hf Hne Hv). unfold trace, fetches in *.
    simpl. rewrite List.filter_app, L. done. }
  destruct (strict_eq (value (extract E c html))
              (previous E t (Part000.dbKey c))) eqn:Heq.
  - apply strict_eq_previous in Heq.
    rewrite (run_unchanged E c t html Hf Hne Hv Heq). unfold trace, fetches in *.
    simpl. rewrite List.filter_app, L. done.
  - rewrite (run_changed E c t html Hf Hne Hv Heq). unfold trace at 1.
    unfold fetches in *. simpl. rewrite !List.filter_app, L. simpl.
    unfold read_trace. unfold_io.
    destruct (get_fault E (Part000.dbKey c));
      destruct (unset (TELEGRAM_BOT_TOKEN E) || unset (TELEGRAM_CHAT_ID E));
      simpl; repeat match goal with
      | |- context [http_post ?E ?u ?c ?m] => destruct (http_post E u c m)
      | |- context [put_fault ?E ?k] => destruct (put_fault E k)
      end; reflexivity.
Qed.

Lemma index_run_fetches E t :
  fetches (trace (Index.handler E t)) = [HttpGet Index.URL].
Proof.
  assert (L : ∀ html, fetches (console (Index.parseOutages E html)) = []).
  { intros html. apply logs_no_fetch, parseOutages_logs. }
  destruct (http_get E Index.URL) as [html|msg] eqn:Hf.
  2: { by rewrite (index_run_fetch_rejected E t msg Hf). }
  destruct (decide (html = [])) as [->|Hne].
  { by rewrite (index_run_fetch_empty E t Hf). }
  specialize (L html).
  destruct (decide (value (Index.parseOutages E html) = [])) as [Hv|Hv].
  { rewrite (index_run_no_data E t html Hf Hne Hv). unfold trace, fetches in *.
    simpl. rewrite List.filter_app, L. done. }
  destruct (strict_eq (value (Index.parseOutages E html))
              (previous E t Index.DYNAMO_PRIMARY_KEY)) eqn:Heq.
  - apply strict_eq_previous in Heq.
    rewrite (index_run_unchanged E t html Hf Hne Hv Heq).
    unfold trace, fetches in *. simpl. rewrite List.filter_app, L. done.
  - rewrite (index_run_changed E t html Hf Hne Hv Heq). unfold trace at 1.
    unfold fetches in *. simpl. rewrite !List.filter_app, L. simpl.
    unfold index_read_trace. index_unfold_io.
    destruct (get_fault E Index.DYNAMO_PRIMARY_KEY);
      destruct (unset (TELEGRAM_BOT_TOKEN E) || unset (TELEGRAM_CHAT_ID E));
      simpl; repeat match goal with
      | |- context [http_post ?E ?u ?c ?m] => destruct (http_post E u c m)
      | |- context [put_fault ?E ?k] => destruct (put_fault E k)
      end; reflexivity.
Qed.

(** X17. Every invocation requests its pages, whatever happens: the handler
    of the two-category variant requests the emergency page and then the
    planned page, each once, also when the first request or anything after
    it fails; the handler of the single-category variant requests the
    planned page once. *)
Theorem pages_are_always_requested E t :
  fetches (trace (Part000.handler E t))
  = [HttpGet (lit "https://www.mpwik.com.pl/view/awarie");
     HttpGet (lit "https://www.mpwik.com.pl/view/planowane")]
  ∧ fetches (trace (Index.handler E t))
    = [HttpGet (lit "https://www.mpwik.com.pl/view/planowane")].
Proof.
  split; [|apply index_run_fetches].
  rewrite handler_runs_both. unfold trace at 1. unfold fetches. simpl.
  rewrite !List.filter_app. simpl.
  change (List.filter is_fetch ?l) with (fetches l).
  by rewrite !run_fetches.
Qed.

(** ** Row order *)

(** X18. The reports of the two-category variant do not depend on the order
    of the rows in the document: two documents whose districts carry the
    same names and the same rows, in any order, give the same planned
    report, and two emergency tables with the same rows in any order give
    the same emergency report. *)
Theorem part000_reports_ignore_row_order :
  (∀ E E' html html',
     Forall2 same_rows (dzielnica (cheerio_load E html))
       (dzielnica (cheerio_load E' html')) →
     value (Part000.parseOutages E html)
     = value (Part000.parseOutages E' html'))
  ∧ (∀ E E' html html' rows rows',
     awarie (cheerio_load E html) = Some rows →
     awarie (cheerio_load E' html') = Some rows' →
     rows ≡ₚ rows' →
     value (Part000.parseEmergencyOutages E html)
     = value (Part000.parseEmergencyOutages E' html')).
Proof.
  split.
  - exact parseOutages_row_order.
  - exact parseEmergencyOutages_row_order.
Qed.

Lemma part000_reports_ignore_row_order_witness :
  value (Part000.parseOutages Sample.rows_12 (lit "<html>"))
  = value (Part000.parseOutages Sample.rows_21 (lit "<html>"))
  ∧ value (Part000.parseEmergencyOutages
             (Sample.outside
                (Sample.page_of [] (Some [Sample.erow1; Sample.erow2]))
                None None (resolved tt)) (lit "<html>"))
    = value (Part000.parseEmergencyOutages
               (Sample.outside
                  (Sample.page_of [] (Some [Sample.erow2; Sample.erow1]))
                  None None (resolved tt)) (lit "<html>")).
Proof.
  destruct part000_reports_ignore_row_order as [P Em]. split.
  - apply P. constructor; [|constructor].
    split; [reflexivity | apply perm_swap].
  - apply (Em _ _ _ _ [Sample.erow1; Sample.erow2]
             [Sample.erow2; Sample.erow1]);
      [reflexivity | reflexivity | apply perm_swap].
Defined.

(** ** The order of the requests *)

(** X19. In a run that writes to the store, the write is the last request:
    the trace ends with the write and the one console line of
    [saveNewOutages], and everything before, the Telegram request
    included, has been done by then. *)
Theorem write_is_the_last_request E c t :
  puts (trace (Part000.processOutages E c t)) ≠ [] →
  ∃ before it line,
    trace (Part000.processOutages E c t)
    = before ++ [PutItem Part000.DYNAMO_TABLE_NAME (Part000.dbKey c) it; line]
    ∧ puts before = []
    ∧ posts before = posts (trace (Part000.processOutages E c t))
    ∧ (is_log line = true ∨ is_error line = true).
Proof.
  intros Hp.
  destruct (processOutages_cases E c t)
    as [([_ U] & _)|[(html & _ & _ & _ & _ & [_ U] & _)
       |(html & Hf & Hne & Hv & Heq & _)]]; try done.
  rewrite (run_changed E c t html Hf Hne Hv Heq). unfold trace at 1 4.
  destruct (logs_silent _ (extract_logs E c html)) as (Lp & Lu & _ & _).
  destruct (read_trace_obs E (Part000.dbKey c)) as (Rp & Ru & _).
  destruct (send_no_store E (message c (value (extract E c html))) t)
    as (Su & _).
  remember (read_trace E (Part000.dbKey c)) as R eqn:HR. clear HR.
  remember (trace (Part000.sendTelegramMessage E _ t)) as S eqn:HS. clear HS.
  set (text := value (extract E c html)) in *.
  set (pre := ConsoleLog (lit "Processing: " ++ Part000.header c)
              :: HttpGet (Part000.url c)
              :: console (extract E c html) ++ R
              ++ ConsoleLog (lit "New data detected for " ++ Part000.header c
                             ++ lit ". Notifying and updating state.") :: S).
  assert (Hpre : puts pre = []).
  { unfold pre, puts in *. simpl. rewrite !List.filter_app. simpl.
    by rewrite Lu, Ru, Su. }
  destruct (put_fault E (Part000.dbKey c)) as [msg|] eqn:Hu.
  - rewrite (save_rejected E _ text t msg Hu). unfold trace.
    exists pre, (Item text (now E (Part000.dbKey c))),
      (ConsoleError [lit "Error saving item with key " ++ Part000.dbKey c
                     ++ lit " to DynamoDB:"; msg]).
    split; [|split; [exact Hpre|split; [|by right]]].
    + unfold pre. simpl. by rewrite <-!app_assoc.
    + unfold pre, posts. simpl. rewrite !List.filter_app. simpl.
      rewrite !List.filter_app. simpl. by rewrite app_nil_r.
  - rewrite (save_served E _ text t Hu). unfold trace.
    exists pre, (Item text (now E (Part000.dbKey c))),
      (ConsoleLog (lit "Successfully saved new data with key "
                   ++ Part000.dbKey c ++ lit " to DynamoDB.")).
    split; [|split; [exact Hpre|split; [|by left]]].
    + unfold pre. simpl. by rewrite <-!app_assoc.
    + unfold pre, posts. simpl. rewrite !List.filter_app. simpl.
      rewrite !List.filter_app. simpl. by rewrite app_nil_r.
Qed.

Lemma write_is_the_last_request_witness :
  ∃ before it line,
    trace (Part000.processOutages Sample.calm Part000.PLANNED ∅)
    = before ++ [PutItem Part000.DYNAMO_TABLE_NAME
                   (Part000.dbKey Part000.PLANNED) it; line]
    ∧ puts before = [].
Proof.
  destruct (write_is_the_last_request Sample.calm Part000.PLANNED ∅)
    as (before & it & line & H & U & _); [by vm_compute|].
  by exists before, it, line.
Defined.

End further.

(** ** A district without rows, in the single-category variant *)

Section row_free_district.
Import Part000Parse Part000Districts Part000Run Part000Obs.
Import IndexParse IndexRun IndexObs.

(** C4. What [src/index.js] does when the district of the target name has
    no row of more than 4 cells and the store does not hold the heading:
    the extraction is the heading alone, which is not the empty string, so
    the test commented "If there are no outages, stop here" lets the run
    pass.  The handler answers "New water outage data found, notified, and
    saved.", sends the heading to Telegram and writes it to the store.  The
    parser of the two-category variant returns the empty string on the same
    document. *)
Theorem index_row_free_district_is_notified E t html pre d post :
  http_get E Index.URL = resolved html → html ≠ [] →
  dzielnica (cheerio_load E html) = pre ++ d :: post →
  startsWith (trim (h3 d)) Index.DISTRICT_NAME = true →
  Forall (fun cells : row => (length cells ≤ 4)%nat) (awarie_rows d) →
  Forall (fun d' => startsWith (trim (h3 d')) Index.DISTRICT_NAME = false) post →
  stored t Index.DYNAMO_PRIMARY_KEY ≠ lit "Wyłączenia planowane:" ++ nl ++ nl →
  unset (TELEGRAM_BOT_TOKEN E) = false → unset (TELEGRAM_CHAT_ID E) = false →
  let heading := lit "Wyłączenia planowane:" ++ nl ++ nl in
  returned (Index.handler E t)
  = Response 200 (lit "New water outage data found, notified, and saved.")
      (Some heading)
  ∧ posts (trace (Index.handler E t)) = [telegram_post E heading]
  ∧ puts (trace (Index.handler E t))
    = [PutItem Index.DYNAMO_TABLE_NAME Index.DYNAMO_PRIMARY_KEY
         (Item heading (now E Index.DYNAMO_PRIMARY_KEY))]
  ∧ (put_fault E Index.DYNAMO_PRIMARY_KEY = None →
     stored (table_after (Index.handler E t)) Index.DYNAMO_PRIMARY_KEY
     = heading)
  ∧ value (Part000.parseOutages E html) = [].
Proof.
  intros Hf Hne Hd Hm Hr Hpost Hs Ht Hc heading.
  pose proof (index_heading_only E html pre d post Hd Hm Hr Hpost) as Hv.
  change Index.heading with heading in Hv.
  assert (Hv' : value (Index.parseOutages E html) ≠ []).
  { rewrite Hv. apply heading_nonempty. }
  assert (Hd' : strict_eq (value (Index.parseOutages E html))
                  (previous E t Index.DYNAMO_PRIMARY_KEY) = false).
  { rewrite Hv. by apply differs_strict. }
  destruct (index_changed_obs E t html Hf Hne Hv' Hd') as (R & P & U & _ & T).
  rewrite Hv in R, P, U, T. rewrite (index_send_configured E _ t Ht Hc) in P.
  split; [exact R|]. split; [exact P|]. split; [exact U|]. split.
  - intros Hu. rewrite T, (index_save_served E heading t Hu).
    unfold table_after. simpl. apply stored_insert.
  - rewrite parseOutages_value, Hd, fold_left_app. simpl.
    rewrite (Part000Districts.other_districts _ post Hpost).
    rewrite district_callback_value.
    change Part000.DISTRICT_NAME with Index.DISTRICT_NAME. rewrite Hm.
    by destruct (short_rows_no_record _ Hr) as [-> _].
Qed.

Lemma index_row_free_district_is_notified_witness :
  returned (Index.handler Sample.row_free ∅)
  = Response 200 (lit "New water outage data found, notified, and saved.")
      (Some (lit "Wyłączenia planowane:" ++ nl ++ nl))
  ∧ posts (trace (Index.handler Sample.row_free ∅))
    = [telegram_post Sample.row_free (lit "Wyłączenia planowane:" ++ nl ++ nl)]
  ∧ value (Part000.parseOutages Sample.row_free (lit "<html>")) = [].
Proof.
  destruct (index_row_free_district_is_notified Sample.row_free ∅
              (lit "<html>") [Sample.bemowo]
              (Sample.ursus [Sample.short_row]) [])
    as (R & P & _ & _ & E0).
  - reflexivity.
  - by vm_compute.
  - reflexivity.
  - by vm_compute.
  - repeat constructor.
  - constructor.
  - by vm_compute.
  - reflexivity.
  - reflexivity.
  - by repeat split.
Defined.

End row_free_district.
